(** * Phishing detection system: the prediction pipeline

    A shallow embedding of the Python sources

    - [utils/text_preprocessor.py]   (class [TextPreprocessor])
    - [models/url_classifier.py]     (class [URLClassifier])
    - [models/email_classifier.py]   (class [EmailClassifier])
    - [utils/validators.py]          (class [InputValidator])
    - [services/prediction_service.py] (class [PredictionService])
    - [api/routes.py]                (the endpoints [api_predict],
                                      [api_batch_predict], [api_health])

    followed by the properties of the pipeline.

    Conventions.
    - A Python [str] is a [list ascii]; a character is a code point below
      256 (Latin-1), which is closed under [str.lower].  The character
      classes below are Python's for that range.
    - [re.sub] and [re.search] are a left-to-right scan that tries, at every
      position, a matcher written for the pattern at hand.
    - A Python exception is a value [Raise e] of the type [result].
    - A fitted scikit-learn estimator is a record of functions ([predict],
      [predict_proba]) that return a value or raise.
    - Floats are IEEE binary64 ([PrimFloat]); the literals [0.8] and [0.6]
      denote the nearest binary64 value, as they do in Python. *)

From stdpp Require Import gmap strings.
From Stdlib Require Import ZArith List String Ascii Bool Lia Floats.
Import ListNotations.

Set Warnings "-inexact-float".

Local Open Scope nat_scope.

(** ** Python strings *)

Abbreviation text := (list ascii).

Definition str (s : string) : text := list_ascii_of_string s.

Definition code (c : ascii) : N := N_of_ascii c.

Definition in_range (lo hi : N) (c : ascii) : bool :=
  (lo <=? code c)%N && (code c <=? hi)%N.

Definition is_char (k : N) (c : ascii) : bool := (code c =? k)%N.

(** [[0-9]], which is also [\d] below code point 256. *)
Definition is_digit (c : ascii) : bool := in_range 48 57 c.

(** [str.isspace], [\s], and what [str.strip] and [str.split] remove:
    tab, LF, VT, FF, CR, FS, GS, RS, US, space, NEL and NBSP. *)
Definition is_space (c : ascii) : bool :=
  in_range 9 13 c || in_range 28 32 c || is_char 133 c || is_char 160 c.

Definition non_space (c : ascii) : bool := negb (is_space c).

Definition is_ascii_upper (c : ascii) : bool := in_range 65 90 c.
Definition is_ascii_lower (c : ascii) : bool := in_range 97 122 c.
Definition is_ascii_alpha (c : ascii) : bool :=
  is_ascii_upper c || is_ascii_lower c.

(** [\w] on a [str] pattern: [c.isalnum() or c == '_']. *)
Definition is_word (c : ascii) : bool :=
  is_digit c || is_ascii_alpha c || is_char 95 c
  || is_char 170 c || is_char 178 c || is_char 179 c || is_char 181 c
  || is_char 185 c || is_char 186 c || in_range 188 190 c
  || in_range 192 214 c || in_range 216 246 c || in_range 248 255 c.

(** [string.punctuation]. *)
Definition is_punctuation (c : ascii) : bool :=
  in_range 33 47 c || in_range 58 64 c || in_range 91 96 c
  || in_range 123 126 c.

(** One character of [str.lower]. *)
Definition lower_char (c : ascii) : ascii :=
  if is_ascii_upper c || in_range 192 214 c || in_range 216 222 c
  then ascii_of_N (code c + 32)
  else c.

Definition lower (s : text) : text := map lower_char s.

Definition ascii_eqb (a b : ascii) : bool := (code a =? code b)%N.

Fixpoint text_eqb (a b : text) : bool :=
  match a, b with
  | [], [] => true
  | x :: a', y :: b' => ascii_eqb x y && text_eqb a' b'
  | _, _ => false
  end.

(** [s.startswith(p)]. *)
Fixpoint startswith (p s : text) : bool :=
  match p, s with
  | [], _ => true
  | x :: p', y :: s' => ascii_eqb x y && startswith p' s'
  | _ :: _, [] => false
  end.

(** [p in s] for strings. *)
Fixpoint contains (p s : text) : bool :=
  startswith p s ||
  match s with
  | [] => false
  | _ :: s' => contains p s'
  end.

(** [c in s] for one character. *)
Definition has_char (k : N) (s : text) : bool := existsb (is_char k) s.

(** The longest prefix of [s] whose characters satisfy [p]: what a greedy
    [[class]*] consumes. *)
Fixpoint span (p : ascii -> bool) (s : text) : nat :=
  match s with
  | c :: s' => if p c then S (span p s') else 0
  | [] => 0
  end.

Fixpoint drop_while (p : ascii -> bool) (s : text) : text :=
  match s with
  | c :: s' => if p c then drop_while p s' else s
  | [] => []
  end.

Definition lstrip (p : ascii -> bool) (s : text) : text := drop_while p s.
Definition rstrip (p : ascii -> bool) (s : text) : text :=
  rev (drop_while p (rev s)).

(** [s.strip()]. *)
Definition strip (s : text) : text := rstrip is_space (lstrip is_space s).

(** [s.split()]: the maximal runs of non-whitespace characters.  [cur] is
    the word being read, reversed. *)
Fixpoint split_from (cur : text) (s : text) : list text :=
  match s with
  | [] => match cur with [] => [] | _ => [rev cur] end
  | c :: s' =>
      if is_space c
      then match cur with
           | [] => split_from [] s'
           | _ => rev cur :: split_from [] s'
           end
      else split_from (c :: cur) s'
  end.

Definition split (s : text) : list text := split_from [] s.

(** [s.count(p)] for a two-character [p = a ++ a]: occurrences that do not
    overlap, counted from the left. *)
Fixpoint count_pair (k : N) (s : text) (skip : bool) : nat :=
  match s with
  | c :: s' =>
      if skip then count_pair k s' false
      else match s' with
           | d :: _ =>
               if is_char k c && is_char k d
               then S (count_pair k s' true)
               else count_pair k s' false
           | [] => 0
           end
  | [] => 0
  end.

(** [len(s)]. *)
Definition len (s : text) : Z := Z.of_nat (List.length s).

(** [s.count(c)] for one character. *)
Definition count_char (k : N) (s : text) : nat :=
  List.length (List.filter (is_char k) s).

(** ** Regular-expression scanning *)

(** A matcher receives the character before the current position (for
    [\b]) and the rest of the subject, and returns the length of the match
    that starts here.  None of the patterns of this program matches the
    empty string. *)
Definition matcher := option ascii -> text -> option nat.

(** [\b] between [prev] and the head of [s]. *)
Definition word_boundary (prev : option ascii) (s : text) : bool :=
  xorb (match prev with Some c => is_word c | None => false end)
       (match s with c :: _ => is_word c | [] => false end).

(** [\b] right after a word character (in the patterns below, a digit). *)
Definition boundary_after_word (s : text) : bool :=
  match s with c :: _ => negb (is_word c) | [] => true end.

(** [re.sub(pattern, repl, s)]: scan from the left; where the pattern
    matches, emit [repl] and resume after the match; elsewhere copy the
    character.  [skip] counts the characters of the current match still to
    be passed over. *)
Fixpoint re_sub_from (m : matcher) (repl : text) (prev : option ascii)
                     (skip : nat) (s : text) : text :=
  match s with
  | [] => []
  | c :: s' =>
      match skip with
      | S k => re_sub_from m repl (Some c) k s'
      | O =>
          match m prev s with
          | Some (S k) => repl ++ re_sub_from m repl (Some c) k s'
          | _ => c :: re_sub_from m repl (Some c) 0 s'
          end
      end
  end.

Definition re_sub (m : matcher) (repl s : text) : text :=
  re_sub_from m repl None 0 s.

(** [re.search(pattern, s)] as a truth value. *)
Fixpoint re_search_from (m : matcher) (prev : option ascii) (s : text) : bool :=
  match m prev s with
  | Some _ => true
  | None =>
      match s with
      | [] => false
      | c :: s' => re_search_from m (Some c) s'
      end
  end.

Definition re_search (m : matcher) (s : text) : bool :=
  re_search_from m None s.

(** [lit\S+]: the literal, then a greedy non-empty run of non-whitespace. *)
Definition lit_then_nonspace (lit : text) (s : text) : option nat :=
  if startswith lit s
  then match span non_space (skipn (List.length lit) s) with
       | O => None
       | S n => Some (List.length lit + S n)
       end
  else None.

Definition or_else {A} (a b : option A) : option A :=
  match a with Some _ => a | None => b end.

(** Exactly [n] digits ([\d{n}]); returns the rest. *)
Fixpoint eat_digits (n : nat) (s : text) : option text :=
  match n with
  | O => Some s
  | S n' =>
      match s with
      | c :: s' => if is_digit c then eat_digits n' s' else None
      | [] => None
      end
  end.

(** Between [lo] and [hi] digits, greedily ([[0-9]{lo,hi}]); returns the
    number consumed.  What follows the group in the patterns below is
    never a digit, so giving digits back cannot help and the greedy choice
    is the only one that can match. *)
Definition eat_digits_upto (hi : nat) (s : text) : nat :=
  Nat.min hi (span is_digit s).

(** A greedy non-empty run of one class: [\s+], [\d+]. *)
Definition run_pattern (p : ascii -> bool) : matcher := fun _ s =>
  match span p s with
  | O => None
  | S n => Some (S n)
  end.

(** One character of a class: [[class]]. *)
Definition class_pattern (p : ascii -> bool) : matcher := fun _ s =>
  match s with
  | c :: _ => if p c then Some 1 else None
  | [] => None
  end.

(** [sep.join(words)] *)
Fixpoint join (sep : text) (words : list text) : text :=
  match words with
  | [] => []
  | [w] => w
  | w :: rest => w ++ sep ++ join sep rest
  end.

(** [w in l] for a list of strings. *)
Definition text_in (w : text) (l : list text) : bool :=
  existsb (text_eqb w) l.

(** ** TextPreprocessor *)

Module TextPreprocessor.

(** [r'http\S+|www\S+|https\S+'] *)
Definition hyperlink_pattern : matcher := fun _ s =>
  or_else (lit_then_nonspace (str "http") s)
    (or_else (lit_then_nonspace (str "www") s)
             (lit_then_nonspace (str "https") s)).

(** [r'\S+@\S+'].  The first [\S+] is greedy and backs off until an [@]
    follows it with at least one non-whitespace character behind; the
    second [\S+] then runs to the end of the token.  So the match is the
    whole rest of the token, provided an [@] stands strictly inside it. *)
Definition email_address_pattern : matcher := fun _ s =>
  let n := span non_space s in
  match firstn n s with
  | _ :: inner => if has_char 64 (removelast inner) then Some n else None
  | [] => None
  end.

Definition is_phone_sep (c : ascii) : bool := is_char 45 c || is_char 46 c.

(** [[-.]?] *)
Definition eat_opt_sep (s : text) : text * nat :=
  match s with
  | c :: s' => if is_phone_sep c then (s', 1) else (s, 0)
  | [] => (s, 0)
  end.

(** [r'\b\d{3}[-.]?\d{3}[-.]?\d{4}\b'] *)
Definition phone_pattern : matcher := fun prev s =>
  if word_boundary prev s then
    match eat_digits 3 s with
    | Some s1 =>
        let '(s2, k1) := eat_opt_sep s1 in
        match eat_digits 3 s2 with
        | Some s3 =>
            let '(s4, k2) := eat_opt_sep s3 in
            match eat_digits 4 s4 with
            | Some s5 =>
                if boundary_after_word s5
                then Some (10 + k1 + k2)
                else None
            | None => None
            end
        | None => None
        end
    | None => None
    end
  else None.

(** [r'<[^>]+>'] *)
Definition html_tag_pattern : matcher := fun _ s =>
  match s with
  | c :: s' =>
      if is_char 60 c then
        let n := span (fun d => negb (is_char 62 d)) s' in
        match n, skipn n s' with
        | S _, d :: _ => Some (n + 2)
        | _, _ => None
        end
      else None
  | [] => None
  end.

(** [text.translate(str.maketrans('', '', string.punctuation))] *)
Definition remove_punctuation (s : text) : text :=
  List.filter (fun c => negb (is_punctuation c)) s.

Definition preprocess_email (t : text) : text :=
  match t with
  | [] => []
  | _ =>
      let t := re_sub hyperlink_pattern [] t in
      let t := re_sub email_address_pattern [] t in
      let t := re_sub phone_pattern [] t in
      let t := re_sub html_tag_pattern [] t in
      let t := re_sub (run_pattern is_space) (str " ") t in
      let t := lower t in
      let t := remove_punctuation t in
      let t := re_sub (run_pattern is_digit) [] t in
      strip t
  end.

Definition preprocess_url (url : text) : text :=
  match url with
  | [] => []
  | _ =>
      let url := strip url in
      let url :=
        if negb (startswith (str "http://") url
                 || startswith (str "https://") url)
        then str "http://" ++ url
        else url in
      lower url
  end.

(** [[word.strip() for word in text.split()
      if len(word.strip()) >= min_length]] *)
Definition extract_words (t : text) (min_length : Z) : list text :=
  match t with
  | [] => []
  | _ =>
      map strip
        (List.filter (fun word => (min_length <=? len (strip word))%Z)
           (split t))
  end.

Definition default_stop_words : list text :=
  map str
    ["a"; "an"; "and"; "are"; "as"; "at"; "be"; "been"; "by";
     "for"; "from"; "has"; "he"; "in"; "is"; "it"; "its"; "of";
     "on"; "that"; "the"; "to"; "was"; "will"; "with"; "you";
     "your"; "yours"; "this"; "they"; "them"; "their"]%string.

Definition remove_stop_words (t : text) (stop_words : option (list text))
  : text :=
  match t with
  | [] => []
  | _ =>
      let stop_words :=
        match stop_words with
        | None => default_stop_words
        | Some l => l
        end in
      let words := split t in
      let filtered_words :=
        List.filter (fun word => negb (text_in (lower word) stop_words))
          words in
      join (str " ") filtered_words
  end.

(** [clean_special_characters(text)] with [keep_patterns] left at its
    default [None]: nothing is preserved, so the two loops over the
    preserved patterns do nothing.  [r'[^\w\s]'] is replaced by a space,
    then [r'\s+'] by a space, then the text is stripped. *)
Definition clean_special_characters (t : text) : text :=
  match t with
  | [] => []
  | _ =>
      let t :=
        re_sub (class_pattern (fun c => negb (is_word c || is_space c)))
          (str " ") t in
      strip (re_sub (run_pattern is_space) (str " ") t)
  end.

End TextPreprocessor.

(** ** Exceptions *)

Inductive exn : Type :=
| RuntimeError (msg : string)
| ValueError (msg : string)
| FileNotFoundError (msg : string)
| OtherError (msg : string).

Inductive result (A : Type) : Type :=
| Ok (a : A)
| Raise (e : exn).

Arguments Ok {A} a.
Arguments Raise {A} e.

(** Sequencing: an exception ends the computation. *)
#[global] Instance result_ret : MRet result := fun A a => Ok a.
#[global] Instance result_bind : MBind result := fun A B k r =>
  match r with
  | Ok a => k a
  | Raise e => Raise e
  end.

(** [str(e)] *)
Definition exn_message (e : exn) : string :=
  match e with
  | RuntimeError msg | ValueError msg | FileNotFoundError msg
  | OtherError msg => msg
  end.

(** ** urllib.parse.urlparse, as far as [netloc] goes *)

Module UrlParse.

(** [_WHATWG_C0_CONTROL_OR_SPACE]: code points 0 to 32. *)
Definition is_c0_or_space (c : ascii) : bool := in_range 0 32 c.

(** [_UNSAFE_URL_BYTES_TO_REMOVE]: tab, CR, LF. *)
Definition is_unsafe_byte (c : ascii) : bool :=
  is_char 9 c || is_char 13 c || is_char 10 c.

(** [scheme_chars]: letters, digits, [+], [-], [.]. *)
Definition is_scheme_char (c : ascii) : bool :=
  is_ascii_alpha c || is_digit c || is_char 43 c || is_char 45 c
  || is_char 46 c.

(** The delimiters that end the network location: [/], [?], [#]. *)
Definition is_netloc_delim (c : ascii) : bool :=
  is_char 47 c || is_char 63 c || is_char 35 c.

(** Leading and unsafe characters removed. *)
Definition sanitize (url : text) : text :=
  List.filter (fun c => negb (is_unsafe_byte c)) (lstrip is_c0_or_space url).

(** The part of [url] after the scheme: when a [:] stands at position
    [i > 0], [url[0]] is an ASCII letter and [url[:i]] consists of scheme
    characters, the scheme and the colon are removed. *)
Definition strip_scheme (url : text) : text :=
  let i := span (fun c => negb (is_char 58 c)) url in
  match url with
  | c0 :: _ =>
      if (0 <? i) && (i <? List.length url) && is_ascii_alpha c0
         && forallb is_scheme_char (firstn i url)
      then skipn (S i) url
      else url
  | [] => url
  end.

(** [_splitnetloc(url, 2)]: from position 2 up to the first delimiter. *)
Definition splitnetloc (url : text) : text :=
  let rest := skipn 2 url in
  firstn (span (fun c => negb (is_netloc_delim c)) rest) rest.

(** [urlparse(url).netloc], or [ValueError], as [urlsplit] of CPython 3.12
    computes it.  A network location with an unmatched bracket raises; one with both brackets is handed to
    [check_bracketed], the interpreter's validation of a bracketed host
    ([_check_bracketed_netloc], which rests on the [ipaddress] module and is
    taken as a parameter).  [_checknetloc] cannot raise on code points
    below 256. *)
Definition netloc (check_bracketed : text -> bool) (url : text)
  : result text :=
  let url := strip_scheme (sanitize url) in
  if startswith (str "//") url then
    let nl := splitnetloc url in
    let lb := has_char 91 nl in
    let rb := has_char 93 nl in
    if (lb && negb rb) || (rb && negb lb)
    then Raise (ValueError "Invalid IPv6 URL")
    else if lb && rb && negb (check_bracketed nl)
    then Raise (ValueError "Invalid IPv6 URL")
    else Ok nl
  else Ok [].

End UrlParse.

(** ** Trained models *)

(** [np.max] of a probability row: raises on an empty row, and a NaN
    wins. *)
Definition float_max (a b : float) : float :=
  if PrimFloat.is_nan a then a
  else if PrimFloat.is_nan b then b
  else if PrimFloat.ltb a b then b else a.

Definition np_max (row : list float) : result float :=
  match row with
  | [] => Raise (ValueError "zero-size array to reduction operation maximum")
  | p :: row' => Ok (fold_left float_max row' p)
  end.

(** A fitted scikit-learn estimator over inputs of type [X]:
    [model.predict(x)[0]], [model.predict_proba(x)[0]] and
    [model.n_features_in_]. *)
Record Estimator (X : Type) : Type := {
  sk_predict : X -> result Z;
  sk_predict_proba : X -> result (list float);
  n_features_in_ : Z
}.

Arguments sk_predict {X} _ _.
Arguments sk_predict_proba {X} _ _.
Arguments n_features_in_ {X} _.

(** A fitted vectorizer: [vectorizer.transform([text])]. *)
Record Vectorizer (X : Type) : Type := {
  sk_transform : text -> result X
}.

Arguments sk_transform {X} _ _.

(** The body shared by both [predict] methods, after the loaded check. *)
Definition estimator_predict {X} (model : Estimator X) (x : X)
  : result (Z * float) :=
  prediction ← sk_predict model x;
  probabilities ← sk_predict_proba model x;
  confidence ← np_max probabilities;
  Ok (prediction, confidence).

(** ** URLClassifier *)

Module URLClassifier.

Record t : Type := {
  model : option (Estimator (list Z));
  is_loaded : bool;
  expected_features : Z
}.

Definition init : t :=
  {| model := None; is_loaded := false; expected_features := 30 |}.

Definition load_model (url_classifier_pkl : result (Estimator (list Z)))
    (self : t) : t * result unit :=
  match url_classifier_pkl with
  | Raise e => (self, Raise e)
  | Ok m =>
      ({| model := Some m; is_loaded := true;
          expected_features := n_features_in_ m |}, Ok tt)
  end.

(** One dotted group [[0-9]{1,3}\.]: returns the rest. *)
Definition eat_octet_dot (s : text) : option text :=
  match eat_digits_upto 3 s with
  | O => None
  | S n =>
      match skipn (S n) s with
      | c :: s' => if is_char 46 c then Some s' else None
      | [] => None
      end
  end.

(** [r'\b(?:[0-9]{1,3}\.){3}[0-9]{1,3}\b'] *)
Definition ip_pattern : matcher := fun prev s =>
  if word_boundary prev s then
    match eat_octet_dot s with
    | Some s1 =>
        match eat_octet_dot s1 with
        | Some s2 =>
            match eat_octet_dot s2 with
            | Some s3 =>
                match eat_digits_upto 3 s3 with
                | O => None
                | S n =>
                    if boundary_after_word (skipn (S n) s3)
                    then Some (List.length s - List.length s3 + S n)
                    else None
                end
            | None => None
            end
        | None => None
        end
    | None => None
    end
  else None.

Definition _has_ip_address (url : text) : Z :=
  if re_search ip_pattern url then 1 else -1.

Definition _get_url_length_category (length : Z) : Z :=
  if (length <? 54)%Z then -1
  else if (length <=? 75)%Z then 0
  else 1.

Definition shortening_services : list text :=
  map str ["bit.ly"; "tinyurl.com"; "goo.gl"; "t.co";
           "short.link"; "ow.ly"; "is.gd"]%string.

Definition _has_shortening_service (url : text) : Z :=
  if existsb (fun service => contains service (lower url)) shortening_services
  then 1 else -1.

Definition _has_double_slash_redirect (url : text) : Z :=
  if 1 <? count_pair 47 url false then 1 else -1.

Definition _has_prefix_suffix (domain : text) : Z :=
  if has_char 45 domain then 1 else -1.

Definition _count_subdomains (domain : text) : Z :=
  match domain with
  | [] => -1
  | _ =>
      let subdomain_count := count_char 46 domain in
      if subdomain_count <=? 1 then -1
      else if subdomain_count =? 2 then 0
      else 1
  end.

(** [range(n)] has [max n 0] elements. *)
Definition range_len (n : Z) : nat := Z.to_nat n.

(** The seven heuristics, in the order they are appended. *)
Definition heuristics (url netloc : text) : list Z :=
  [ _has_ip_address url;
    _get_url_length_category (len url);
    _has_shortening_service url;
    (if has_char 64 url then 1 else -1)%Z;
    _has_double_slash_redirect url;
    _has_prefix_suffix netloc;
    _count_subdomains netloc ].

(** [extract_features]: the row of the returned [1 x n] array.  An
    exception of [urlparse] is logged and re-raised. *)
Definition extract_features (check_bracketed : text -> bool) (self : t)
    (url : text) : result (list Z) :=
  netloc ← UrlParse.netloc check_bracketed url;
  let features := heuristics url netloc in
  let remaining_features :=
    (expected_features self - Z.of_nat (List.length features))%Z in
  Ok (features ++ repeat 0%Z (range_len remaining_features)).

Definition predict (self : t) (features : list Z) : result (Z * float) :=
  if negb (is_loaded self) then Raise (RuntimeError "Model not loaded")
  else
    match model self with
    | Some m => estimator_predict m features
    | None => Raise (OtherError "AttributeError")
    end.

End URLClassifier.

(** ** Request data *)

(** A value of a request field: only whether it is a string, and whether
    it is truthy, is ever looked at. *)
Inductive jval : Type :=
| JStr (s : text)
| JOther (truthy : bool).

(** A decoded JSON request item: an object, or something else. *)
Inductive json_item : Type :=
| ItemObject (fields : gmap string jval)
| ItemString (s : text)
| ItemArray (elems : list jval)
| ItemScalar (truthy : bool).

Definition jval_is (s : text) (v : jval) : bool :=
  match v with
  | JStr s' => text_eqb s' s
  | JOther _ => false
  end.

(** ** InputValidator *)

Module InputValidator.

Record validation : Type := {
  is_valid : bool;
  error : option string
}.

Definition invalid (msg : string) : validation :=
  {| is_valid := false; error := Some msg |}.

Definition valid : validation := {| is_valid := true; error := None |}.

(** [r'<script[^>]*>.*?</script>'] under [IGNORECASE | DOTALL]: the
    opening tag runs to the first [>]; the lazy [.*?] stops at the first
    closing tag behind it. *)
Fixpoint find_from (p s : text) : option nat :=
  if startswith p s then Some 0
  else match s with
       | [] => None
       | _ :: s' => option_map S (find_from p s')
       end.

Definition script_pattern : matcher := fun _ s =>
  let s := lower s in
  if startswith (str "<script") s then
    let rest := skipn 7 s in
    let n := span (fun c => negb (is_char 62 c)) rest in
    match skipn n rest with
    | _ :: body =>
        match find_from (str "</script>") body with
        | Some k => Some (7 + n + 1 + k + 9)
        | None => None
        end
    | [] => None
    end
  else None.

(** A literal pattern under [IGNORECASE]. *)
Definition literal_pattern_ci (lit : text) : matcher := fun _ s =>
  if startswith lit (lower s) then Some (List.length lit) else None.

Definition suspicious_patterns : list matcher :=
  [ script_pattern;
    literal_pattern_ci (str "javascript:");
    literal_pattern_ci (str "data:text/html") ].

Definition _validate_email_content (t : text) : validation :=
  if List.length (split t) <? 2
  then invalid "Email content must contain at least 2 words"
  else if existsb (fun pattern => re_search pattern t) suspicious_patterns
  then invalid "Email content contains potentially malicious patterns"
  else valid.

Section Validation.

(** [url_pattern.match], the compiled URL grammar, and the interpreter's
    validation of a bracketed host are taken as given. *)
Variable url_pattern_match : text -> bool.
Variable check_bracketed : text -> bool.

Definition _validate_url_content (t : text) : validation :=
  let test_url :=
    if startswith (str "http://") t || startswith (str "https://") t
    then t else str "http://" ++ t in
  let lenient_ok :=
    if url_pattern_match test_url then true
    else match UrlParse.netloc check_bracketed test_url with
         | Ok (_ :: _) => true
         | Ok [] => false
         | Raise _ => false
         end in
  if negb lenient_ok then invalid "Invalid URL format"
  else if (2048 <? len t)%Z
  then invalid "URL is too long (max 2048 characters)"
  else valid.

Definition _validate_text_content (v : jval) (content_type : text)
  : validation :=
  match v with
  | JOther _ | JStr [] => invalid "Text content must be a non-empty string"
  | JStr t =>
      let t := strip t in
      match t with
      | [] => invalid "Text content cannot be empty"
      | _ =>
          if (10000 <? len t)%Z
          then invalid "Text content is too long (max 10,000 characters)"
          else if (len t <? 3)%Z
          then invalid "Text content is too short (min 3 characters)"
          else if text_eqb content_type (str "email")
          then _validate_email_content t
          else if text_eqb content_type (str "url")
          then _validate_url_content t
          else valid
      end
  end.

Definition valid_types : list text := [str "email"; str "url"].

(** ['key' in data] on something that is not an object: substring test on
    a string, membership in an array, [TypeError] on a scalar. *)
Definition validate_prediction_input (data : json_item) : validation :=
  match data with
  | ItemObject fields =>
      if bool_decide (fields = ∅)
      then invalid "Request data is required"
      else
        match fields !! "text"%string, fields !! "type"%string with
        | None, _ => invalid "Text field is required"
        | Some _, None => invalid "Type field is required"
        | Some txt, Some ty =>
            match ty with
            | JStr content_type =>
                if existsb (text_eqb content_type) valid_types
                then
                  let text_validation :=
                    _validate_text_content txt content_type in
                  if is_valid text_validation then valid
                  else text_validation
                else invalid "Type must be one of: email, url"
            | JOther _ => invalid "Type must be one of: email, url"
            end
        end
  | ItemString s =>
      match s with
      | [] => invalid "Request data is required"
      | _ =>
          if negb (contains (str "text") s)
          then invalid "Text field is required"
          else if negb (contains (str "type") s)
          then invalid "Type field is required"
          else invalid "Validation error occurred"
      end
  | ItemArray elems =>
      match elems with
      | [] => invalid "Request data is required"
      | _ =>
          if negb (existsb (jval_is (str "text")) elems)
          then invalid "Text field is required"
          else if negb (existsb (jval_is (str "type")) elems)
          then invalid "Type field is required"
          else invalid "Validation error occurred"
      end
  | ItemScalar truthy =>
      if truthy then invalid "Validation error occurred"
      else invalid "Request data is required"
  end.

End Validation.

End InputValidator.

(** ** EmailClassifier *)

Module EmailClassifier.

Section Classifier.

(** The type of a vectorized email. *)
Variable X : Type.

Record t : Type := {
  model : option (Estimator X);
  vectorizer : option (Vectorizer X);
  is_loaded : bool
}.

Definition init : t :=
  {| model := None; vectorizer := None; is_loaded := false |}.

(** [load_model]: the two [joblib.load] calls, in order; a failure of
    either is re-raised with the attributes assigned so far kept. *)
Definition load_model (email_classifier_pkl : result (Estimator X))
    (email_vectorizer_pkl : result (Vectorizer X)) (self : t)
  : t * result unit :=
  match email_classifier_pkl with
  | Raise e => (self, Raise e)
  | Ok m =>
      let self := {| model := Some m; vectorizer := vectorizer self;
                     is_loaded := is_loaded self |} in
      match email_vectorizer_pkl with
      | Raise e => (self, Raise e)
      | Ok v =>
          ({| model := Some m; vectorizer := Some v; is_loaded := true |},
           Ok tt)
      end
  end.

Definition predict (self : t) (processed : text) : result (Z * float) :=
  if negb (is_loaded self) then Raise (RuntimeError "Model not loaded")
  else
    match vectorizer self, model self with
    | Some v, Some m =>
        text_features ← sk_transform v processed;
        estimator_predict m text_features
    | _, _ => Raise (OtherError "AttributeError")
    end.

End Classifier.

Arguments model {X} _.
Arguments vectorizer {X} _.
Arguments is_loaded {X} _.
Arguments init {X}.
Arguments load_model {X} _ _ _.
Arguments predict {X} _ _.

End EmailClassifier.

(** ** PredictionService *)

Inductive Label : Type := Phishing | Safe.

Inductive RiskLevel : Type := Low | Medium | High.

Inductive ContentType : Type := Email | Url.

Module PredictionService.

Section Service.

Variable X : Type.
Variable check_bracketed : text -> bool.

Record t : Type := {
  email_classifier : EmailClassifier.t X;
  url_classifier : URLClassifier.t;
  models_loaded : bool
}.

Definition init : t :=
  {| email_classifier := EmailClassifier.init;
     url_classifier := URLClassifier.init;
     models_loaded := false |}.

(** What [load_models] finds on disk: whether [models/saved_models]
    exists, and what [joblib.load] yields for each of the three files. *)
Record saved_models : Type := {
  dir_exists : bool;
  email_classifier_pkl : result (Estimator X);
  email_vectorizer_pkl : result (Vectorizer X);
  url_classifier_pkl : result (Estimator (list Z))
}.

Definition load_models (disk : saved_models) (self : t) : t * result unit :=
  if negb (dir_exists disk)
  then (self, Raise (FileNotFoundError "Models directory not found"))
  else
    let '(ec, r1) :=
      EmailClassifier.load_model (email_classifier_pkl disk)
        (email_vectorizer_pkl disk) (email_classifier self) in
    let self := {| email_classifier := ec;
                   url_classifier := url_classifier self;
                   models_loaded := models_loaded self |} in
    match r1 with
    | Raise e => (self, Raise e)
    | Ok _ =>
        let '(uc, r2) :=
          URLClassifier.load_model (url_classifier_pkl disk)
            (url_classifier self) in
        let self := {| email_classifier := ec;
                       url_classifier := uc;
                       models_loaded := models_loaded self |} in
        match r2 with
        | Raise e => (self, Raise e)
        | Ok _ =>
            ({| email_classifier := ec; url_classifier := uc;
                models_loaded := true |}, Ok tt)
        end
    end.

Record prediction : Type := {
  prediction_label : Label;
  confidence : float;
  risk_level : RiskLevel;
  content_type : ContentType;
  raw_prediction : Z;
  processed_text : option text
}.

Definition _calculate_risk_level (confidence : float) (is_phishing : bool)
  : RiskLevel :=
  if negb is_phishing then Low
  else if PrimFloat.leb 0.8%float confidence then High
  else if PrimFloat.leb 0.6%float confidence then Medium
  else Low.

(** [if prediction_num == 1: "Phishing" else: "Safe"] *)
Definition map_prediction (prediction_num : Z) : Label :=
  if (prediction_num =? 1)%Z then Phishing else Safe.

Definition is_phishing (l : Label) : bool :=
  match l with Phishing => true | Safe => false end.

Definition _predict_email (self : t) (txt : text) : result prediction :=
  let processed := TextPreprocessor.preprocess_email txt in
  '(prediction_num, conf) ←
    EmailClassifier.predict (email_classifier self) processed;
  let label := map_prediction prediction_num in
  let risk := _calculate_risk_level conf (is_phishing label) in
  Ok {| prediction_label := label; confidence := conf; risk_level := risk;
        content_type := Email; raw_prediction := prediction_num;
        processed_text := Some (firstn 100 processed) |}.

Definition _predict_url (self : t) (url : text) : result prediction :=
  features ←
    URLClassifier.extract_features check_bracketed (url_classifier self) url;
  '(prediction_num, conf) ←
    URLClassifier.predict (url_classifier self) features;
  let label := map_prediction prediction_num in
  let risk := _calculate_risk_level conf (is_phishing label) in
  Ok {| prediction_label := label; confidence := conf; risk_level := risk;
        content_type := Url; raw_prediction := prediction_num;
        processed_text := None |}.

Definition predict_text (self : t) (txt content_type : text)
  : result prediction :=
  if negb (models_loaded self) then Raise (RuntimeError "Models not loaded")
  else if text_eqb (lower content_type) (str "email")
  then _predict_email self txt
  else if text_eqb (lower content_type) (str "url")
  then _predict_url self txt
  else Raise (ValueError "Invalid content type").

Definition predict (self : t) (txt detection_type : text)
  : result prediction :=
  predict_text self txt detection_type.

(** An entry of the list that [predict_batch] returns: the prediction
    spread into the entry on success, the message of the exception and the
    first 50 characters of the text otherwise. *)
Record batch_entry : Type := {
  entry_success : bool;
  entry_prediction : option prediction;
  entry_error : option string;
  entry_text : option text
}.

(** [predict_text] on arguments of any JSON type, as [predict_batch]
    hands them over from a decoded request.  On two strings it is
    [predict_text].  Otherwise, once the models are loaded,
    [content_type.lower()] raises [AttributeError] on a type that is not a
    string; on the email path [preprocess_email] turns a text that is not
    a string into the empty string, which is then classified; on the URL
    path [extract_features] raises on a text that is not a string. *)
Definition predict_text_json (self : t) (txt content_type : jval)
  : result prediction :=
  match txt, content_type with
  | JStr txt, JStr content_type => predict_text self txt content_type
  | _, _ =>
      if negb (models_loaded self)
      then Raise (RuntimeError "Models not loaded")
      else
        match content_type with
        | JOther _ => Raise (OtherError "AttributeError")
        | JStr content_type =>
            if text_eqb (lower content_type) (str "email")
            then _predict_email self []
            else if text_eqb (lower content_type) (str "url")
            then Raise (OtherError "TypeError")
            else Raise (ValueError "Invalid content type")
        end
  end.

(** [self.predict_text(item['text'], item['type'])], inside the [try]:
    subscripting an item that is not an object raises [TypeError]; a
    missing key raises [KeyError], whose message is the quoted key. *)
Definition predict_item (self : t) (item : json_item) : result prediction :=
  match item with
  | ItemObject fields =>
      match fields !! "text"%string with
      | None => Raise (OtherError "'text'")
      | Some txt =>
          match fields !! "type"%string with
          | None => Raise (OtherError "'type'")
          | Some ty => predict_text_json self txt ty
          end
      end
  | _ => Raise (OtherError "TypeError")
  end.

(** [item.get('text', '')[:50] + '...'], in the [except] clause: an item
    that is not an object has no [get] ([AttributeError]); a text that is
    not a string cannot be sliced and joined to a string ([TypeError]). *)
Definition failure_text (item : json_item) : result text :=
  match item with
  | ItemObject fields =>
      match fields !! "text"%string with
      | None => Ok (str "...")
      | Some (JStr txt) => Ok (firstn 50 txt ++ str "...")
      | Some (JOther _) => Raise (OtherError "TypeError")
      end
  | _ => Raise (OtherError "AttributeError")
  end.

(** The body of the loop: the entry appended for [item], or the exception
    that leaves the [except] clause and with it the loop.  ([str(e)] is
    the message for the exceptions whose message is modelled, the
    [RuntimeError] and the [KeyError]; the others carry a tag.) *)
Definition batch_entry_of (self : t) (item : json_item)
  : result batch_entry :=
  match predict_item self item with
  | Ok r =>
      Ok {| entry_success := true; entry_prediction := Some r;
            entry_error := None; entry_text := None |}
  | Raise e =>
      txt ← failure_text item;
      Ok {| entry_success := false; entry_prediction := None;
            entry_error := Some (exn_message e); entry_text := Some txt |}
  end.

(** [predict_batch], on a list of decoded JSON values: the list of
    entries, or the exception that escaped a failure handler. *)
Definition predict_batch (self : t) (items : list json_item)
  : result (list batch_entry) :=
  fold_left
    (fun results item =>
       results ← results;
       entry ← batch_entry_of self item;
       Ok (results ++ [entry]))
    items (Ok []).

(** A value of the dictionary that [get_model_info] returns. *)
Inductive info_value : Type :=
| InfoBool (b : bool)
| InfoStr (s : string).

Definition get_model_info (self : t) : gmap string info_value :=
  <["models_loaded"%string := InfoBool (models_loaded self)]>
    (<["email_classifier_loaded"%string :=
         InfoBool (EmailClassifier.is_loaded (email_classifier self))]>
       (<["url_classifier_loaded"%string :=
            InfoBool (URLClassifier.is_loaded (url_classifier self))]>
          (<["models_directory"%string := InfoStr "models/saved_models"]> ∅))).

Definition get_model_status (self : t) : gmap string info_value :=
  get_model_info self.

End Service.

Arguments email_classifier {X} _.
Arguments url_classifier {X} _.
Arguments models_loaded {X} _.
Arguments init {X}.
Arguments dir_exists {X} _.
Arguments email_classifier_pkl {X} _.
Arguments email_vectorizer_pkl {X} _.
Arguments url_classifier_pkl {X} _.
Arguments load_models {X} _ _.
Arguments _predict_email {X} _ _.
Arguments _predict_url {X} _ _ _.
Arguments predict_text {X} _ _ _ _.
Arguments predict {X} _ _ _ _.
Arguments predict_text_json {X} _ _ _ _.
Arguments predict_item {X} _ _ _.
Arguments batch_entry_of {X} _ _ _.
Arguments predict_batch {X} _ _ _.
Arguments get_model_info {X} _.
Arguments get_model_status {X} _.

End PredictionService.

(** ** api/routes.py: the batch endpoint *)

Module Routes.

(** The [data] object of a successful item. *)
Record result_data : Type := {
  data_prediction : Label;
  data_confidence : float;
  data_risk_level : RiskLevel;
  data_detection_type : text
}.

Record batch_item_result : Type := {
  index : nat;
  success : bool;
  data : option result_data;
  error : option string
}.

(** The decoded request body, as far as the endpoint inspects it: a falsy
    body or one without an ['items'] member, an ['items'] member that is
    not a list, or a list of items. *)
Inductive request_body : Type :=
| BodyWithoutItems
| BodyItemsNotList
| BodyItems (items : list json_item).

Inductive response : Type :=
| ErrorResponse (status : Z) (message : string)
| BatchResponse (results : list batch_item_result)
                (total_items successful_predictions : nat).

(** [enumerate(items)] *)
Definition enumerate {A} (l : list A) : list (nat * A) :=
  combine (seq 0 (List.length l)) l.

(** [item['text']] and [item['type']] *)
Definition item_field (key : string) (item : json_item) : option jval :=
  match item with
  | ItemObject fields => fields !! key
  | _ => None
  end.

Section Api.

Variable X : Type.
Variable url_pattern_match : text -> bool.
Variable check_bracketed : text -> bool.

(** [round(x, 4)], taken as given. *)
Variable round4 : float -> float.

Definition failure (i : nat) (msg : string) : batch_item_result :=
  {| index := i; success := false; data := None; error := Some msg |}.

(** The body of the loop for item [i]: what is appended to [results].
    Any exception is caught at the item and reported as a processing
    error.  A validated item is an object whose two fields are strings, so
    the last branch stands for the [KeyError] or [TypeError] that indexing
    anything else would raise. *)
Definition process_item (svc : PredictionService.t X) (i : nat)
    (item : json_item) : batch_item_result :=
  let validation_result :=
    InputValidator.validate_prediction_input url_pattern_match
      check_bracketed item in
  if negb (InputValidator.is_valid validation_result)
  then {| index := i; success := false; data := None;
          error := InputValidator.error validation_result |}
  else
    match item_field "text" item, item_field "type" item with
    | Some (JStr txt), Some (JStr ty) =>
        match PredictionService.predict check_bracketed svc txt ty with
        | Ok r =>
            {| index := i; success := true;
               data := Some
                 {| data_prediction := PredictionService.prediction_label r;
                    data_confidence := round4 (PredictionService.confidence r);
                    data_risk_level := PredictionService.risk_level r;
                    data_detection_type := ty |};
               error := None |}
        | Raise _ => failure i "Processing error"
        end
    | _, _ => failure i "Processing error"
    end.

(** [results = []; for i, item in enumerate(items): ... results.append(..)] *)
Definition process_items (svc : PredictionService.t X)
    (items : list json_item) : list batch_item_result :=
  fold_left (fun results '(i, item) => results ++ [process_item svc i item])
            (enumerate items) [].

Definition api_batch_predict
    (prediction_service : option (PredictionService.t X))
    (body : request_body) : response :=
  match prediction_service with
  | None => ErrorResponse 503 "Prediction service unavailable"
  | Some svc =>
      match body with
      | BodyWithoutItems =>
          ErrorResponse 400 "Items array is required for batch prediction"
      | BodyItemsNotList =>
          ErrorResponse 400 "Items must be a non-empty array"
      | BodyItems items =>
          if List.length items =? 0
          then ErrorResponse 400 "Items must be a non-empty array"
          else if 50 <? List.length items
          then ErrorResponse 400 "Batch size cannot exceed 50 items"
          else
            let results := process_items svc items in
            BatchResponse results (List.length items)
              (List.length (List.filter success results))
      end
  end.

(** The response of the single-prediction endpoint: the status code and
    the [success], [error] and [data] members of the body.  (The
    [metadata] member, a timestamp and the version, is left out.) *)
Record predict_response : Type := {
  status : Z;
  body_success : bool;
  body_error : option string;
  body_data : option result_data
}.

Definition error_response (code : Z) (msg : option string)
  : predict_response :=
  {| status := code; body_success := false; body_error := msg;
     body_data := None |}.

Definition api_predict
    (prediction_service : option (PredictionService.t X))
    (data : json_item) : predict_response :=
  match prediction_service with
  | None => error_response 503 (Some "Prediction service unavailable"%string)
  | Some svc =>
      let validation_result :=
        InputValidator.validate_prediction_input url_pattern_match
          check_bracketed data in
      if negb (InputValidator.is_valid validation_result)
      then error_response 400 (InputValidator.error validation_result)
      else
        match item_field "text" data, item_field "type" data with
        | Some (JStr txt), Some (JStr ty) =>
            match PredictionService.predict check_bracketed svc txt ty with
            | Ok r =>
                {| status := 200; body_success := true; body_error := None;
                   body_data := Some
                     {| data_prediction := PredictionService.prediction_label r;
                        data_confidence :=
                          round4 (PredictionService.confidence r);
                        data_risk_level := PredictionService.risk_level r;
                        data_detection_type := ty |} |}
            | Raise _ =>
                error_response 500 (Some "Internal server error"%string)
            end
        | _, _ => error_response 500 (Some "Internal server error"%string)
        end
  end.

(** [api_health]: the status code and the body.  [model_info] has no
    ['models_ready'] key, so that subscript raises [KeyError], which the
    handler turns into the 500 response. *)
Definition api_health
    (prediction_service : option (PredictionService.t X))
  : Z * gmap string PredictionService.info_value :=
  let health_status : gmap string PredictionService.info_value :=
    <["status"%string := PredictionService.InfoStr "healthy"]>
      (<["models_loaded"%string :=
           PredictionService.InfoBool
             (match prediction_service with Some _ => true | None => false end)]>
         (<["version"%string := PredictionService.InfoStr "v1"]> ∅)) in
  match prediction_service with
  | Some svc =>
      let model_info := PredictionService.get_model_info svc in
      match model_info !! "models_ready"%string with
      | Some ready =>
          (200%Z, <["models_ready"%string := ready]> health_status)
      | None =>
          (500%Z,
           <["status"%string := PredictionService.InfoStr "unhealthy"]>
             (<["error"%string :=
                  PredictionService.InfoStr "Health check failed"]> ∅))
      end
  | None => (200%Z, health_status)
  end.

End Api.

Arguments api_predict {X} _ _ _ _ _.
Arguments api_health {X} _.
Arguments process_item {X} _ _ _ _ _ _.
Arguments process_items {X} _ _ _ _ _.
Arguments api_batch_predict {X} _ _ _ _ _.

End Routes.

(** * Notions used in the statements *)

Module TextPreprocessorSpec.

Import TextPreprocessor.

(** What every character of a normalized text satisfies: it is no
    punctuation and no digit, it is its own lowercase, and if it is
    whitespace it is the space character. *)
Definition clean (c : ascii) : Prop :=
  is_punctuation c = false /\ is_digit c = false /\ lower_char c = c
  /\ (is_space c = true -> c = " "%char).

End TextPreprocessorSpec.

Module URLClassifierSpec.

Import URLClassifier.




(** One to three digits. *)
Definition is_octet (a : text) : bool :=
  (1 <=? List.length a) && (List.length a <=? 3) && forallb is_digit a.

Definition dot : ascii := "."%char.

(** Four groups of one to three digits, separated by dots. *)
Inductive dotted_quad : text -> Prop :=
| DottedQuad a b c d :
    is_octet a = true -> is_octet b = true ->
    is_octet c = true -> is_octet d = true ->
    dotted_quad (a ++ dot :: b ++ dot :: c ++ dot :: d).

(** The character before a position: the last one of [pre], or [prev]. *)
Fixpoint prev_of (prev : option ascii) (pre : text) : option ascii :=
  match pre with
  | [] => prev
  | c :: pre' => prev_of (Some c) pre'
  end.

Definition is_word_opt (o : option ascii) : bool :=
  match o with Some c => is_word c | None => false end.

Definition word_after (post : text) : bool :=
  match post with c :: _ => is_word c | [] => false end.

(** The URL text contains a dotted quad that neither follows nor precedes
    a word character. *)
Definition ip_occurs (url : text) : Prop :=
  exists pre q post,
    url = pre ++ q ++ post /\ dotted_quad q
    /\ is_word_opt (prev_of None pre) = false /\ word_after post = false.

(** A classifier whose model was fitted on three features. *)
Definition three_feature_model : Estimator (list Z) :=
  {| sk_predict := fun _ => Ok 1%Z;
     sk_predict_proba := fun _ => Ok [0.25%float; 0.75%float];
     n_features_in_ := 3 |}.

Definition three_feature_classifier : t :=
  fst (load_model (Ok three_feature_model) init).

End URLClassifierSpec.

Module PredictionServiceSpec.

Import PredictionService.

(** What the failure handler of [predict_batch] can report on: an object
    whose text is absent or a string. *)
Definition reportable (item : json_item) : bool :=
  match item with
  | ItemObject fields =>
      match fields !! "text"%string with
      | Some (JOther _) => false
      | _ => true
      end
  | _ => false
  end.

(** The text of a request object, [''] when it is absent. *)
Definition text_or_empty (fields : gmap string jval) : text :=
  match fields !! "text"%string with
  | Some (JStr txt) => txt
  | _ => []
  end.

(** How a prediction is assembled from the raw label and the confidence. *)
Definition assemble (ct : ContentType) (processed : option text)
    (prediction_num : Z) (conf : float) : prediction :=
  {| prediction_label := map_prediction prediction_num;
     confidence := conf;
     risk_level :=
       _calculate_risk_level conf (is_phishing (map_prediction prediction_num));
     content_type := ct;
     raw_prediction := prediction_num;
     processed_text := processed |}.

(** A service loaded with an email model that answers raw label 0 with
    probability 0.9, as a model fitted on labels encoded in alphabetical
    order (Phishing = 0, Safe = 1) does on a phishing text. *)
Definition zero_label_model : Estimator unit :=
  {| sk_predict := fun _ => Ok 0%Z;
     sk_predict_proba := fun _ => Ok [0.9%float; 0.1%float];
     n_features_in_ := 1 |}.

Definition unit_vectorizer : Vectorizer unit :=
  {| sk_transform := fun _ => Ok tt |}.

Definition thirty_feature_model : Estimator (list Z) :=
  {| sk_predict := fun _ => Ok 1%Z;
     sk_predict_proba := fun _ => Ok [0.1%float; 0.9%float];
     n_features_in_ := 30 |}.

Definition demo_disk : saved_models unit :=
  {| dir_exists := true;
     email_classifier_pkl := Ok zero_label_model;
     email_vectorizer_pkl := Ok unit_vectorizer;
     url_classifier_pkl := Ok thirty_feature_model |}.

Definition demo_service : t unit := fst (load_models demo_disk init).

(** The encoding that [LabelEncoder] produces for the two class names. *)
Definition alphabetical_table (raw : Z) : Label :=
  if (raw =? 0)%Z then Phishing else Safe.

(** The states a service can be in: freshly constructed, or after any
    number of calls of [load_models], whatever they found on disk. *)
Inductive reachable {X} : t X -> Prop :=
| reach_init : reachable init
| reach_load disk self :
    reachable self -> reachable (fst (load_models disk self)).

(** All three files are there and load. *)
Definition load_succeeds {X} (disk : saved_models X) : Prop :=
  dir_exists disk = true
  /\ (exists m, email_classifier_pkl disk = Ok m)
  /\ (exists v, email_vectorizer_pkl disk = Ok v)
  /\ (exists u, url_classifier_pkl disk = Ok u).

Definition both_loaded {X} (self : t X) : Prop :=
  EmailClassifier.is_loaded (email_classifier self) = true
  /\ URLClassifier.is_loaded (url_classifier self) = true.

(** A disk on which the url classifier is missing. *)
Definition email_only_disk : saved_models unit :=
  {| dir_exists := true;
     email_classifier_pkl := Ok zero_label_model;
     email_vectorizer_pkl := Ok unit_vectorizer;
     url_classifier_pkl := Raise (FileNotFoundError "url_classifier.pkl") |}.

End PredictionServiceSpec.

Module RoutesSpec.

Import Routes.

Definition request (txt ty : string) : json_item :=
  ItemObject (<["text"%string := JStr (str txt)]>
                (<["type"%string := JStr (str ty)]> ∅)).

(** The batch of the third scenario, followed by a URL. *)
Definition mixed_batch : list json_item :=
  [ request "ok valid text here" "email";
    request "x" "bogus";
    request "http://a.com" "url" ].

Definition repeat_items (n : nat) : list json_item :=
  repeat (request "ok valid text here" "email") n.

End RoutesSpec.

Module InputValidatorSpec.

(** An email request whose text links to a script, in mixed capitals. *)
Definition javascript_link : gmap string jval :=
  <["text"%string := JStr (str "click JavaScript:alert(1) now")]>
    (<["type"%string := JStr (str "email")]> ∅).

End InputValidatorSpec.

Module TextShape.

(** Neither the first nor the last character is whitespace. *)
Definition trimmed (s : text) : Prop :=
  match s with [] => True | c :: _ => is_space c = false end
  /\ match rev s with [] => True | c :: _ => is_space c = false end.

(** A word of [str.split]: not empty and free of whitespace. *)
Definition is_split_word (w : text) : Prop :=
  w <> [] /\ Forall (fun c => is_space c = false) w.

(** No two whitespace characters stand side by side. *)
Definition single_spaced (s : text) : Prop :=
  forall pre a b post,
    s = pre ++ a :: b :: post -> is_space a = true -> is_space b = false.

End TextShape.

(** * Properties *)

(** ** Characters *)

Ltac each_char c :=
  destruct c as [[] [] [] [] [] [] [] []]; vm_compute; try reflexivity;
  try discriminate; auto.

Lemma lower_char_idem c : lower_char (lower_char c) = lower_char c.
Proof. each_char c. Qed.

Lemma lower_char_space c : is_space (lower_char c) = is_space c.
Proof. each_char c. Qed.

Lemma ascii_eqb_eq a b : ascii_eqb a b = true <-> a = b.
Proof.
  unfold ascii_eqb, code. rewrite N.eqb_eq. split; [|congruence].
  intros H. rewrite <- (ascii_N_embedding a), <- (ascii_N_embedding b).
  now rewrite H.
Qed.

Lemma is_char_eq k c : is_char k c = true -> c = ascii_of_N k.
Proof.
  unfold is_char, code. rewrite N.eqb_eq. intros <-.
  now rewrite ascii_N_embedding.
Qed.

Lemma lt_sign_is_punctuation c : is_char 60 c = true -> is_punctuation c = true.
Proof. intros H. apply is_char_eq in H. now subst. Qed.

(** ** Strings *)

Lemma contains_cons p c s : contains p s = true -> contains p (c :: s) = true.
Proof. intros H. simpl. rewrite H. apply orb_true_r. Qed.

Lemma contains_app_r p a s : contains p s = true -> contains p (a ++ s) = true.
Proof. induction a; simpl; [auto|]. intros H. rewrite (IHa H). apply orb_true_r. Qed.

Lemma contains_startswith p s : startswith p s = true -> contains p s = true.
Proof. intros H. destruct s; simpl in *; rewrite H; reflexivity. Qed.

Lemma span_le p s : span p s <= List.length s.
Proof. induction s as [|c s IH]; simpl; [lia|]. destruct (p c); simpl; lia. Qed.

Lemma drop_while_suffix p s : exists pre, s = pre ++ drop_while p s.
Proof.
  induction s as [|c s [pre IH]]; simpl.
  - now exists [].
  - destruct (p c).
    + exists (c :: pre). simpl. now f_equal.
    + now exists [].
Qed.

Lemma drop_while_Forall (Q : ascii -> Prop) p s :
  Forall Q s -> Forall Q (drop_while p s).
Proof.
  intros H. destruct (drop_while_suffix p s) as [pre E].
  rewrite E in H. now apply Forall_app in H.
Qed.

Lemma drop_while_idem p s : drop_while p (drop_while p s) = drop_while p s.
Proof.
  induction s as [|c s IH]; simpl; [reflexivity|].
  destruct (p c) eqn:E; [exact IH|]. simpl. now rewrite E.
Qed.

Lemma drop_while_head p c s : p c = false -> drop_while p (c :: s) = c :: s.
Proof. intros H. simpl. now rewrite H. Qed.

Lemma drop_while_keeps_last p l c :
  p c = false -> exists l', drop_while p (l ++ [c]) = l' ++ [c].
Proof.
  intros Hc. induction l as [|d l [l' IH]]; simpl.
  - rewrite Hc. now exists [].
  - destruct (p d); [now exists l'|]. now exists (d :: l).
Qed.

Lemma strip_Forall (Q : ascii -> Prop) s : Forall Q s -> Forall Q (strip s).
Proof.
  intros H. unfold strip, rstrip, lstrip.
  apply Forall_rev, drop_while_Forall, Forall_rev, drop_while_Forall, H.
Qed.

Lemma drop_while_head_false p s c a :
  drop_while p s = c :: a -> p c = false.
Proof.
  induction s as [|x l IH]; simpl; [discriminate|].
  destruct (p x) eqn:Ex; [exact IH|]. intros E. now inversion E; subst.
Qed.

Lemma rstrip_idem p s : rstrip p (rstrip p s) = rstrip p s.
Proof. unfold rstrip. now rewrite rev_involutive, drop_while_idem. Qed.

Lemma rstrip_keeps_head p c a :
  p c = false -> exists l, rstrip p (c :: a) = c :: l.
Proof.
  intros Hc. unfold rstrip. simpl rev.
  destruct (drop_while_keeps_last p (rev a) c Hc) as [l' ->].
  rewrite rev_app_distr. now exists (rev l').
Qed.

Lemma strip_idem s : strip (strip s) = strip s.
Proof.
  unfold strip, lstrip.
  destruct (drop_while is_space s) as [|c a] eqn:Ea; [reflexivity|].
  pose proof (drop_while_head_false _ _ _ _ Ea) as Hc.
  destruct (rstrip_keeps_head is_space c a Hc) as [l E].
  rewrite E, (drop_while_head _ _ _ Hc), <- E. apply rstrip_idem.
Qed.

(** ** Substitution *)

Section ReSub.

Variable m : matcher.
Variable repl : text.

(** The output of a substitution is made of characters of the subject and
    of the replacement. *)
Lemma re_sub_from_Forall (Q : ascii -> Prop) s :
  Forall Q s -> Forall Q repl ->
  forall prev skip, Forall Q (re_sub_from m repl prev skip s).
Proof.
  intros Hs Hr. induction Hs as [|c s Hc Hs IH]; intros prev skip; simpl.
  - constructor.
  - destruct skip as [|k]; [|apply IH].
    destruct (m prev (c :: s)) as [[|k]|].
    + constructor; [exact Hc|apply IH].
    + apply Forall_app. split; [exact Hr|apply IH].
    + constructor; [exact Hc|apply IH].
Qed.

(** Where the pattern matches nowhere, the subject is returned as it is. *)
Lemma re_sub_from_unmatched s :
  forall prev, re_search_from m prev s = false ->
               re_sub_from m repl prev 0 s = s.
Proof.
  induction s as [|c s IH]; intros prev H; simpl; [reflexivity|].
  simpl in H. destruct (m prev (c :: s)); [discriminate|].
  now rewrite (IH _ H).
Qed.

Lemma re_search_from_none (P : text -> Prop) :
  (forall c s, P (c :: s) -> P s) ->
  (forall prev s, P s -> m prev s = None) ->
  forall s prev, P s -> re_search_from m prev s = false.
Proof.
  intros Htl Hm. induction s as [|c s IH]; intros prev Hs; simpl.
  - now rewrite (Hm _ _ Hs).
  - rewrite (Hm _ _ Hs). apply IH. eapply Htl, Hs.
Qed.

End ReSub.

(** A run pattern leaves no character of its class behind, except what
    the replacement brings in. *)
Lemma re_sub_from_run p repl s :
  forall prev skip,
    Forall (fun c => p c = false \/ In c repl)
           (re_sub_from (run_pattern p) repl prev skip s).
Proof.
  induction s as [|c s IH]; intros prev skip; simpl; [constructor|].
  destruct skip as [|k]; [|apply IH].
  unfold run_pattern at 1. simpl span.
  destruct (p c) eqn:Hc.
  - apply Forall_app. split; [|apply IH].
    apply List.Forall_forall. intros x Hx. now right.
  - constructor; [now left|apply IH].
Qed.

(** A substitution whose replacement is at most one character long never
    lengthens the subject. *)
Lemma re_sub_from_length (m : matcher) repl s :
  List.length repl <= 1 ->
  forall prev skip,
    List.length (re_sub_from m repl prev skip s) + Nat.min skip (List.length s)
    <= List.length s.
Proof.
  intros Hr. induction s as [|c s IH]; intros prev skip; simpl.
  - lia.
  - destruct skip as [|k].
    + destruct (m prev (c :: s)) as [[|k]|]; simpl.
      * specialize (IH (Some c) 0). lia.
      * rewrite length_app. specialize (IH (Some c) k). lia.
      * specialize (IH (Some c) 0). lia.
    + specialize (IH (Some c) k). simpl. lia.
Qed.

(** Where a pattern with non-empty matches is found and the replacement is
    empty, the subject gets shorter. *)
Lemma re_sub_from_shorter (m : matcher) s :
  (forall prev t n, m prev t = Some n -> n <> 0 /\ t <> []) ->
  forall prev,
    re_search_from m prev s = true ->
    List.length (re_sub_from m [] prev 0 s) < List.length s.
Proof.
  intros Hm. induction s as [|c s IH]; intros prev H; simpl in *.
  - destruct (m prev []) as [n|] eqn:E; [|discriminate].
    destruct (Hm _ _ _ E) as [_ Hne]. congruence.
  - destruct (m prev (c :: s)) as [[|k]|] eqn:E.
    + destruct (Hm _ _ _ E) as [Hn _]. congruence.
    + simpl. pose proof (re_sub_from_length m [] s (Nat.le_0_l 1) (Some c) k).
      lia.
    + simpl. specialize (IH (Some c) H). lia.
Qed.

Lemma drop_while_length p s : List.length (drop_while p s) <= List.length s.
Proof.
  destruct (drop_while_suffix p s) as [pre E]. rewrite E at 2.
  rewrite length_app. lia.
Qed.

Lemma strip_length s : List.length (strip s) <= List.length s.
Proof.
  unfold strip, rstrip, lstrip. rewrite length_rev.
  etransitivity; [apply drop_while_length|]. rewrite length_rev.
  apply drop_while_length.
Qed.

(** ** The email text normalizer *)

Module TextPreprocessorFacts.

Import TextPreprocessor TextPreprocessorSpec.

Lemma clean_tail c s : Forall clean (c :: s) -> Forall clean s.
Proof. intros H. now inversion H. Qed.

Lemma space_char_lower c :
  (is_space c = false \/ In c (str " ")) ->
  is_space (lower_char c) = true -> lower_char c = " "%char.
Proof.
  intros [H|[<-|[]]] Hs; [|reflexivity].
  rewrite lower_char_space in Hs. congruence.
Qed.

(** Every character of [preprocess_email t] is clean. *)
Lemma preprocess_email_clean t : Forall clean (preprocess_email t).
Proof.
  unfold preprocess_email. destruct t as [|c0 t0]; [constructor|].
  set (t4 := re_sub html_tag_pattern [] _).
  apply strip_Forall.
  set (t7 := remove_punctuation _).
  assert (H7 : Forall (fun c => is_punctuation c = false /\ lower_char c = c
                        /\ (is_space c = true -> c = " "%char)) t7).
  { unfold t7, remove_punctuation, lower.
    apply List.Forall_forall. intros c Hc. apply filter_In in Hc as [Hc Hp].
    apply negb_true_iff in Hp. split; [exact Hp|].
    apply in_map_iff in Hc as [d [<- Hd]]. split; [apply lower_char_idem|].
    apply space_char_lower.
    pose proof (re_sub_from_run is_space (str " ") t4 None 0) as Hrun.
    rewrite List.Forall_forall in Hrun. now apply Hrun. }
  pose proof (re_sub_from_run is_digit [] t7 None 0) as Hd.
  pose proof (re_sub_from_Forall (run_pattern is_digit) [] _ t7 H7
                (Forall_nil _) None 0) as Hk.
  unfold re_sub. rewrite List.Forall_forall in *. intros c Hc.
  destruct (Hd c Hc) as [Hdig|[]]. destruct (Hk c Hc) as (Hp & Hl & Hs).
  repeat split; assumption.
Qed.

Lemma preprocess_email_stripped t :
  strip (preprocess_email t) = preprocess_email t.
Proof.
  unfold preprocess_email. destruct t; [reflexivity|]. apply strip_idem.
Qed.

(** On a clean text the address, phone, tag and digit patterns match
    nowhere. *)
Lemma has_char_sublist k (a b : text) :
  (forall c, In c a -> In c b) -> has_char k a = true -> has_char k b = true.
Proof.
  unfold has_char. rewrite !existsb_exists. intros H [c [Hc Hk]].
  exists c. auto.
Qed.

Lemma In_removelast (c : ascii) l : In c (removelast l) -> In c l.
Proof.
  induction l as [|x l IH]; simpl; [auto|].
  destruct l; [simpl; contradiction|]. intros [H|H]; [now left|right; auto].
Qed.

Lemma In_firstn (c : ascii) n l : In c (firstn n l) -> In c l.
Proof.
  revert l. induction n; intros [|x l]; simpl; try contradiction.
  intros [H|H]; [now left|right; auto].
Qed.

Lemma clean_no_char k s :
  Forall clean s -> is_punctuation (ascii_of_N k) = true ->
  has_char k s = false.
Proof.
  intros Hs Hk. unfold has_char.
  destruct (existsb (is_char k) s) eqn:E; [|reflexivity].
  apply existsb_exists in E as [c [Hc Hck]].
  rewrite List.Forall_forall in Hs. destruct (Hs c Hc) as [Hp _].
  apply is_char_eq in Hck. congruence.
Qed.

Lemma email_address_unmatched prev s :
  Forall clean s -> email_address_pattern prev s = None.
Proof.
  intros Hs. unfold email_address_pattern.
  destruct (firstn (span non_space s) s) as [|c inner] eqn:E; [reflexivity|].
  destruct (has_char 64 (removelast inner)) eqn:H; [|reflexivity].
  apply (has_char_sublist 64 _ s) in H.
  - rewrite clean_no_char in H; [discriminate|assumption|reflexivity].
  - intros x Hx. apply In_removelast in Hx.
    apply (In_firstn x (span non_space s)). rewrite E. now right.
Qed.

Lemma phone_unmatched prev s : Forall clean s -> phone_pattern prev s = None.
Proof.
  intros Hs. unfold phone_pattern.
  destruct (word_boundary prev s); [|reflexivity].
  destruct s as [|c s]; [reflexivity|]. simpl.
  inversion Hs as [|? ? (_ & Hd & _) _]; subst. now rewrite Hd.
Qed.

Lemma html_tag_unmatched prev s :
  Forall clean s -> html_tag_pattern prev s = None.
Proof.
  intros Hs. unfold html_tag_pattern. destruct s as [|c s]; [reflexivity|].
  inversion Hs as [|? ? (Hp & _) _]; subst.
  destruct (is_char 60 c) eqn:E; [|reflexivity].
  apply lt_sign_is_punctuation in E. congruence.
Qed.

Lemma digit_run_unmatched prev s :
  Forall clean s -> run_pattern is_digit prev s = None.
Proof.
  intros Hs. unfold run_pattern. destruct s as [|c s]; [reflexivity|].
  inversion Hs as [|? ? (_ & Hd & _) _]; subst. simpl. now rewrite Hd.
Qed.

Lemma clean_sub_unchanged (m : matcher) s :
  (forall prev s, Forall clean s -> m prev s = None) ->
  Forall clean s -> re_sub m [] s = s.
Proof.
  intros Hm Hs. apply re_sub_from_unmatched.
  apply (re_search_from_none m (Forall clean));
    [apply clean_tail|exact Hm|exact Hs].
Qed.

(** On a clean text without two adjacent spaces, collapsing whitespace
    changes nothing. *)
Lemma collapse_unchanged s :
  Forall clean s -> contains (str "  ") s = false ->
  forall prev, re_sub_from (run_pattern is_space) (str " ") prev 0 s = s.
Proof.
  induction s as [|c s IH]; intros Hs Hd prev; [reflexivity|].
  inversion Hs as [|? ? (_ & _ & _ & Hsp) Hs']; subst.
  assert (Hd' : contains (str "  ") s = false).
  { destruct (contains (str "  ") s) eqn:E; [|reflexivity].
    now rewrite (contains_cons _ c _ E) in Hd. }
  simpl. unfold run_pattern at 1. simpl span.
  destruct (is_space c) eqn:Hc.
  - rewrite (Hsp eq_refl) in *.
    assert (E : span is_space s = 0).
    { destruct s as [|d s]; [reflexivity|]. simpl.
      destruct (is_space d) eqn:Hdsp; [|reflexivity].
      inversion Hs' as [|? ? (_ & _ & _ & Hsd) _]; subst.
      rewrite (Hsd Hdsp) in Hd. discriminate. }
    rewrite E. simpl. now rewrite IH.
  - now rewrite IH.
Qed.

Lemma lower_unchanged s : Forall clean s -> lower s = s.
Proof.
  induction 1 as [|c s (_ & _ & Hl & _) _ IH]; simpl; [reflexivity|].
  now rewrite Hl, IH.
Qed.

Lemma remove_punctuation_unchanged s :
  Forall clean s -> remove_punctuation s = s.
Proof.
  induction 1 as [|c s (Hp & _) _ IH]; simpl; [reflexivity|].
  unfold remove_punctuation in *. simpl. now rewrite Hp, IH.
Qed.

(** A clean, stripped text without two adjacent spaces and without a
    hyperlink-like token is a fixed point of the normalizer. *)
Lemma preprocess_email_fixed y :
  Forall clean y -> strip y = y ->
  contains (str "  ") y = false ->
  re_search hyperlink_pattern y = false ->
  preprocess_email y = y.
Proof.
  intros Hc Hst Hsp Hlink. unfold preprocess_email.
  destruct y as [|c y'] eqn:E; [reflexivity|]. rewrite <- E in *. clear E.
  assert (H1 : re_sub hyperlink_pattern [] y = y)
    by (apply re_sub_from_unmatched, Hlink).
  rewrite H1.
  rewrite (clean_sub_unchanged email_address_pattern y email_address_unmatched Hc).
  rewrite (clean_sub_unchanged phone_pattern y phone_unmatched Hc).
  rewrite (clean_sub_unchanged html_tag_pattern y html_tag_unmatched Hc).
  unfold re_sub at 2. rewrite (collapse_unchanged y Hc Hsp None).
  rewrite (lower_unchanged y Hc), (remove_punctuation_unchanged y Hc).
  rewrite (clean_sub_unchanged (run_pattern is_digit) y digit_run_unmatched Hc).
  exact Hst.
Qed.

(** The other direction: a hyperlink-like token or a double space is
    removed by the next pass, which makes the text shorter. *)
Lemma lit_then_nonspace_nonempty lit t n :
  lit <> [] -> lit_then_nonspace lit t = Some n -> n <> 0 /\ t <> [].
Proof.
  intros Hl. unfold lit_then_nonspace.
  destruct (startswith lit t) eqn:E; [|discriminate].
  destruct (span non_space _); [discriminate|]. intros [= <-].
  split; [lia|]. intros ->. destruct lit; [congruence|discriminate].
Qed.

Lemma hyperlink_pattern_nonempty prev t n :
  hyperlink_pattern prev t = Some n -> n <> 0 /\ t <> [].
Proof.
  unfold hyperlink_pattern, or_else.
  destruct (lit_then_nonspace (str "http") t) eqn:E1.
  { intros [= <-]. eapply lit_then_nonspace_nonempty, E1. discriminate. }
  destruct (lit_then_nonspace (str "www") t) eqn:E2.
  { intros [= <-]. eapply lit_then_nonspace_nonempty, E2. discriminate. }
  intros E3. eapply lit_then_nonspace_nonempty, E3. discriminate.
Qed.

Lemma double_space_head c s :
  startswith (str "  ") (c :: s) = true ->
  is_space c = true /\ 1 <= span is_space s.
Proof.
  destruct s as [|d s]; simpl; [rewrite andb_false_r; discriminate|].
  rewrite !andb_true_iff, !ascii_eqb_eq. intros (<- & <- & _).
  split; [reflexivity|]. simpl. lia.
Qed.

Lemma collapse_shorter s :
  contains (str "  ") s = true ->
  forall prev,
    List.length (re_sub_from (run_pattern is_space) (str " ") prev 0 s)
    < List.length s.
Proof.
  induction s as [|c s IH]; intros H prev; [discriminate|].
  assert (Hcases : (is_space c = true /\ 1 <= span is_space s)
                   \/ contains (str "  ") s = true).
  { simpl contains in H. apply orb_true_iff in H as [H|H]; [left|now right].
    now apply double_space_head. }
  simpl. unfold run_pattern at 1. simpl span.
  pose proof (re_sub_from_length (run_pattern is_space) (str " ") s
                (Nat.le_refl 1) (Some c)) as Hlen.
  pose proof (span_le is_space s) as Hsp.
  change (str " ") with [" "%char] in *.
  destruct (is_space c) eqn:Hc.
  - simpl. specialize (Hlen (span is_space s)).
    destruct Hcases as [[_ Hk]|Hd]; [lia|].
    destruct (span is_space s) as [|k] eqn:Ek; [|lia].
    specialize (IH Hd (Some c)). lia.
  - destruct Hcases as [[Hs _]|Hd]; [congruence|].
    simpl. specialize (IH Hd (Some c)). lia.
Qed.

Lemma tail_steps_length t :
  List.length
    (strip (re_sub (run_pattern is_digit) [] (remove_punctuation (lower t))))
  <= List.length t.
Proof.
  etransitivity; [apply strip_length|].
  pose proof (re_sub_from_length (run_pattern is_digit) []
                (remove_punctuation (lower t)) (Nat.le_0_l 1) None 0) as H.
  unfold re_sub. etransitivity; [|etransitivity].
  - apply Nat.le_add_r.
  - exact H.
  - unfold remove_punctuation, lower.
    etransitivity; [apply filter_length_le|]. now rewrite length_map.
Qed.

Lemma sub_empty_length (m : matcher) t :
  List.length (re_sub m [] t) <= List.length t.
Proof.
  pose proof (re_sub_from_length m [] t (Nat.le_0_l 1) None 0).
  unfold re_sub. lia.
Qed.

Lemma preprocess_email_after_hyperlinks t :
  List.length (preprocess_email t)
  <= List.length (re_sub hyperlink_pattern [] t).
Proof.
  unfold preprocess_email. destruct t as [|c t]; [simpl; lia|].
  etransitivity; [apply tail_steps_length|].
  pose proof (re_sub_from_length (run_pattern is_space) (str " ")
    (re_sub html_tag_pattern []
       (re_sub phone_pattern []
          (re_sub email_address_pattern []
             (re_sub hyperlink_pattern [] (c :: t)))))
    (Nat.le_refl 1) None 0) as H5.
  unfold re_sub at 1. etransitivity; [|etransitivity]; [|exact H5|].
  - apply Nat.le_add_r.
  - etransitivity; [apply sub_empty_length|].
    etransitivity; [apply sub_empty_length|]. apply sub_empty_length.
Qed.

Lemma preprocess_email_after_collapse y :
  Forall clean y -> re_search hyperlink_pattern y = false ->
  List.length (preprocess_email y)
  <= List.length (re_sub (run_pattern is_space) (str " ") y).
Proof.
  intros Hc Hlink. unfold preprocess_email.
  destruct y as [|c y'] eqn:E; [simpl; lia|]. rewrite <- E in *. clear E.
  assert (H1 : re_sub hyperlink_pattern [] y = y)
    by (apply re_sub_from_unmatched, Hlink).
  rewrite H1.
  rewrite (clean_sub_unchanged email_address_pattern y email_address_unmatched Hc).
  rewrite (clean_sub_unchanged phone_pattern y phone_unmatched Hc).
  rewrite (clean_sub_unchanged html_tag_pattern y html_tag_unmatched Hc).
  apply tail_steps_length.
Qed.

Lemma preprocess_email_fixed_only_if y :
  Forall clean y -> preprocess_email y = y ->
  contains (str "  ") y = false /\ re_search hyperlink_pattern y = false.
Proof.
  intros Hc Hfix.
  destruct (re_search hyperlink_pattern y) eqn:Hlink.
  { exfalso.
    pose proof (re_sub_from_shorter hyperlink_pattern y
                  hyperlink_pattern_nonempty None Hlink) as Hlt.
    pose proof (preprocess_email_after_hyperlinks y) as Hle.
    unfold re_sub in Hle. rewrite Hfix in Hle. lia. }
  split; [|reflexivity].
  destruct (contains (str "  ") y) eqn:Hsp; [|reflexivity]. exfalso.
  pose proof (collapse_shorter y Hsp None) as Hlt.
  pose proof (preprocess_email_after_collapse y Hc Hlink) as Hle.
  unfold re_sub in Hle. rewrite Hfix in Hle. lia.
Qed.

(** C2, as amended: the normalizer is idempotent on exactly those inputs
    whose normalized text contains neither two adjacent spaces nor a
    hyperlink-like token ([http] or [www] followed by a non-whitespace
    character).  The pipeline applies, in this order, hyperlink stripping,
    address stripping, phone-number stripping, tag stripping, whitespace
    collapsing, lowercasing, punctuation stripping, digit-run stripping and
    trimming. *)
Theorem preprocess_email_idempotent_on_settled x :
  (contains (str "  ") (preprocess_email x) = false
   /\ re_search hyperlink_pattern (preprocess_email x) = false)
  <-> preprocess_email (preprocess_email x) = preprocess_email x.
Proof.
  split.
  - intros [Hsp Hlink]. apply preprocess_email_fixed.
    + apply preprocess_email_clean.
    + apply preprocess_email_stripped.
    + exact Hsp.
    + exact Hlink.
  - apply preprocess_email_fixed_only_if, preprocess_email_clean.
Qed.

Lemma preprocess_email_idempotent_on_settled_witness :
  contains (str "  ")
    (preprocess_email
       (str "Urgent! Verify your account now: http://fake-bank.com/verify"))
    = false
  /\ re_search hyperlink_pattern
       (preprocess_email
          (str "Urgent! Verify your account now: http://fake-bank.com/verify"))
     = false
  /\ preprocess_email
       (preprocess_email
          (str "Urgent! Verify your account now: http://fake-bank.com/verify"))
     = preprocess_email
         (str "Urgent! Verify your account now: http://fake-bank.com/verify").
Proof.
  split; [vm_compute; reflexivity|].
  split; [vm_compute; reflexivity|].
  apply (proj1 (preprocess_email_idempotent_on_settled
           (str "Urgent! Verify your account now: http://fake-bank.com/verify")));
    split; vm_compute; reflexivity.
Defined.

(** C2, as stated, fails: removing the digit run of ["a 1 b"] comes after
    whitespace collapsing and leaves two adjacent spaces, which a second
    pass collapses. *)
Lemma preprocess_email_not_idempotent :
  preprocess_email (str "a 1 b") = str "a  b"
  /\ preprocess_email (preprocess_email (str "a 1 b")) = str "a b"
  /\ preprocess_email (preprocess_email (str "a 1 b"))
     <> preprocess_email (str "a 1 b").
Proof.
  split; [vm_compute; reflexivity|].
  split; [vm_compute; reflexivity|].
  vm_compute. discriminate.
Qed.

(** The other way the second pass differs: lowercasing and punctuation
    stripping turn ["HTTP://x.y now"] into a token that the hyperlink
    pattern removes. *)
Example preprocess_email_late_hyperlink :
  preprocess_email (str "HTTP://x.y now") = str "httpxy now"
  /\ preprocess_email (str "httpxy now") = str "now".
Proof. split; vm_compute; reflexivity. Qed.

End TextPreprocessorFacts.

(** ** The network location of a URL *)

Module UrlParseFacts.

Import UrlParse.

Lemma In_skipn (c : ascii) n l : In c (skipn n l) -> In c l.
Proof.
  revert l. induction n; intros [|x l]; simpl; auto.
Qed.

Lemma In_drop_while (c : ascii) p l : In c (drop_while p l) -> In c l.
Proof.
  destruct (drop_while_suffix p l) as [pre E]. intros H.
  rewrite E. apply in_or_app. now right.
Qed.

Lemma In_strip_scheme c url : In c (strip_scheme url) -> In c url.
Proof.
  unfold strip_scheme. destruct url as [|c0 url]; [auto|].
  destruct (_ && _); [apply In_skipn|auto].
Qed.

Lemma In_sanitize c url : In c (sanitize url) -> In c url.
Proof.
  unfold sanitize, lstrip. intros H. apply filter_In in H as [H _].
  now apply In_drop_while in H.
Qed.

(** The characters of the network location are characters of the URL. *)
Lemma In_splitnetloc c url :
  In c (splitnetloc (strip_scheme (sanitize url))) -> In c url.
Proof.
  unfold splitnetloc. intros H.
  apply TextPreprocessorFacts.In_firstn, In_skipn, In_strip_scheme,
    In_sanitize in H. exact H.
Qed.

Lemma has_char_netloc k url :
  has_char k url = false ->
  has_char k (splitnetloc (strip_scheme (sanitize url))) = false.
Proof.
  intros H. unfold has_char in *.
  destruct (existsb _ (splitnetloc _)) eqn:E; [|reflexivity].
  apply existsb_exists in E as [c [Hc Hk]].
  apply In_splitnetloc in Hc.
  assert (existsb (is_char k) url = true) by (apply existsb_exists; eauto).
  congruence.
Qed.

(** A URL of code points below 256 without square brackets always parses:
    there [_checknetloc] cannot raise.  (Beyond that range it can.) *)
Lemma netloc_without_brackets ck url :
  has_char 91 url = false -> has_char 93 url = false ->
  exists nl, netloc ck url = Ok nl.
Proof.
  intros Hl Hr. unfold netloc.
  destruct (startswith _ _); [|now exists []].
  rewrite (has_char_netloc 91 url Hl), (has_char_netloc 93 url Hr). simpl.
  eauto.
Qed.

Lemma skipn_suffix {A} n (l : list A) : exists pre, l = pre ++ skipn n l.
Proof. exists (firstn n l). symmetry. apply firstn_skipn. Qed.

Lemma strip_scheme_suffix url : exists pre, url = pre ++ strip_scheme url.
Proof.
  unfold strip_scheme. destruct url as [|c0 url]; [now exists []|].
  destruct (_ && _); [apply skipn_suffix|now exists []].
Qed.

Lemma filter_drop_while_suffix (f p : ascii -> bool) url :
  exists pre, filter f url = pre ++ filter f (drop_while p url).
Proof.
  destruct (drop_while_suffix p url) as [pre E].
  exists (filter f pre). rewrite <- filter_app. now rewrite <- E.
Qed.

(** Without a [//] once tab, CR and LF are deleted, there is no network
    location. *)
Lemma netloc_without_double_slash ck url :
  contains (str "//") (filter (fun c => negb (is_unsafe_byte c)) url) = false ->
  netloc ck url = Ok [].
Proof.
  intros H. unfold netloc.
  destruct (startswith (str "//") (strip_scheme (sanitize url))) eqn:E;
    [|reflexivity].
  exfalso. apply contains_startswith in E.
  destruct (strip_scheme_suffix (sanitize url)) as [pre1 E1].
  apply (contains_app_r _ pre1) in E. rewrite <- E1 in E.
  unfold sanitize, lstrip in E.
  destruct (filter_drop_while_suffix (fun c => negb (is_unsafe_byte c))
              is_c0_or_space url) as [pre2 E2].
  apply (contains_app_r _ pre2) in E. rewrite <- E2 in E. congruence.
Qed.

End UrlParseFacts.

(** ** The URL feature extractor *)

Module URLClassifierFacts.

Import URLClassifier URLClassifierSpec.

Lemma extract_features_ok ck self url nl :
  UrlParse.netloc ck url = Ok nl ->
  extract_features ck self url
  = Ok (heuristics url nl
        ++ repeat 0%Z (Z.to_nat (expected_features self - 7))).
Proof. intros H. unfold extract_features. rewrite H. reflexivity. Qed.

Lemma extract_features_raise ck self url e :
  UrlParse.netloc ck url = Raise e -> extract_features ck self url = Raise e.
Proof. intros H. unfold extract_features. rewrite H. reflexivity. Qed.

(** C1, as amended: on every URL that [urlparse] accepts, and for every
    expected dimension, the extractor returns the seven heuristic values
    followed by [max 0 (expected - 7)] zeros; the length of the vector is
    [max 7 expected], which is the expected dimension when that is at
    least seven and seven otherwise: nothing is truncated.  When
    [urlparse] raises, the extractor re-raises the same exception; so the
    extractor returns exactly when [urlparse] does. *)
Theorem extract_features_length ck self url :
  (forall nl, UrlParse.netloc ck url = Ok nl ->
     exists v,
       extract_features ck self url = Ok v
       /\ v = heuristics url nl
              ++ repeat 0%Z (Z.to_nat (expected_features self - 7))
       /\ Z.of_nat (List.length v) = Z.max 7 (expected_features self)
       /\ ((7 <= expected_features self)%Z ->
           Z.of_nat (List.length v) = expected_features self)
       /\ ((expected_features self < 7)%Z -> List.length v = 7))
  /\ (forall e, UrlParse.netloc ck url = Raise e ->
        extract_features ck self url = Raise e)
  /\ (forall v, extract_features ck self url = Ok v ->
        exists nl,
          UrlParse.netloc ck url = Ok nl
          /\ v = heuristics url nl
                 ++ repeat 0%Z (Z.to_nat (expected_features self - 7))
          /\ Z.of_nat (List.length v) = Z.max 7 (expected_features self))
  /\ (forall e, extract_features ck self url = Raise e ->
        UrlParse.netloc ck url = Raise e).
Proof.
  assert (Hlen : forall nl,
            Z.of_nat (List.length
                        (heuristics url nl
                         ++ repeat 0%Z
                              (Z.to_nat (expected_features self - 7))))
            = Z.max 7 (expected_features self)).
  { intros nl. cbn [heuristics List.length app]. rewrite repeat_length. lia. }
  split; [|split; [|split]].
  - intros nl H.
    exists (heuristics url nl
            ++ repeat 0%Z (Z.to_nat (expected_features self - 7))).
    split; [apply extract_features_ok, H|]. split; [reflexivity|].
    pose proof (Hlen nl) as Hl. split; [exact Hl|]. split; intros Hd; lia.
  - intros e H. apply extract_features_raise, H.
  - intros v Hv. destruct (UrlParse.netloc ck url) as [nl|e] eqn:H.
    + rewrite (extract_features_ok _ _ _ _ H) in Hv.
      injection Hv as <-.
      exists nl. split; [reflexivity|]. split; [reflexivity|].
      apply Hlen.
    + rewrite (extract_features_raise _ _ _ _ H) in Hv. discriminate.
  - intros e He. destruct (UrlParse.netloc ck url) as [nl|e'] eqn:H.
    + rewrite (extract_features_ok _ _ _ _ H) in He. discriminate.
    + rewrite (extract_features_raise _ _ _ _ H) in He. congruence.
Qed.

Lemma extract_features_length_witness :
  UrlParse.netloc (fun _ => true) (str "http://192.168.0.1/login")
  = Ok (str "192.168.0.1")
  /\ exists v,
       extract_features (fun _ => true) init (str "http://192.168.0.1/login")
       = Ok v
       /\ Z.of_nat (List.length v) = 30%Z.
Proof.
  split; [vm_compute; reflexivity|].
  destruct (proj1 (extract_features_length (fun _ => true) init
                     (str "http://192.168.0.1/login"))
              (str "192.168.0.1")) as (v & Hv & _ & Hl & _);
    [vm_compute; reflexivity|].
  exists v. split; [exact Hv|exact Hl].
Defined.

(** C1, as stated, fails.  With an expected dimension of 3 the vector
    keeps its seven heuristic values, so its length is 7; and a URL whose
    host has an unmatched bracket makes the extractor raise. *)
Lemma extract_features_not_truncated :
  expected_features three_feature_classifier = 3%Z
  /\ extract_features (fun _ => true) three_feature_classifier
       (str "http://a.com")
     = Ok [-1; -1; -1; -1; -1; -1; -1]%Z
  /\ List.length [-1; -1; -1; -1; -1; -1; -1]%Z <> 3
  /\ extract_features (fun _ => true) three_feature_classifier
       (str "http://[")
     = Raise (ValueError "Invalid IPv6 URL").
Proof.
  split; [reflexivity|]. split; [vm_compute; reflexivity|].
  split; [simpl; lia|]. vm_compute; reflexivity.
Qed.

(** The zero padding in the ordinary case. *)
Example extract_features_padded :
  extract_features (fun _ => true) init (str "http://192.168.0.1/login")
  = Ok ([1; -1; -1; -1; -1; -1; 1] ++ repeat 0 23)%Z.
Proof. vm_compute. reflexivity. Qed.

(** For a URL text that has no [//] once tab, CR and LF are deleted, the
    extractor parses an empty host, so the hyphen feature and the
    subdomain feature are both [-1]. *)
Lemma schemeless_url_features ck self url :
  contains (str "//") (filter (fun c => negb (UrlParse.is_unsafe_byte c)) url)
  = false ->
  UrlParse.netloc ck url = Ok []
  /\ exists v,
       extract_features ck self url = Ok v
       /\ v = heuristics url []
              ++ repeat 0%Z (Z.to_nat (expected_features self - 7))
       /\ nth_error v 5 = Some (-1)%Z
       /\ nth_error v 6 = Some (-1)%Z.
Proof.
  intros H. pose proof (UrlParseFacts.netloc_without_double_slash ck url H) as Hn.
  split; [exact Hn|]. eexists. split; [apply extract_features_ok, Hn|].
  repeat split.
Qed.


(** The same with the scheme in capitals. *)
Example capital_scheme_has_host :
  startswith (str "https://") (str "HTTPS://my-bank.com/login") = false
  /\ UrlParse.netloc (fun _ => true) (str "HTTPS://my-bank.com/login")
     = Ok (str "my-bank.com").
Proof. split; vm_compute; reflexivity. Qed.

(** *** The dotted-quad pattern, read declaratively *)

Lemma re_search_from_spec (m : matcher) s :
  forall prev,
    re_search_from m prev s = true <->
    exists pre rest, s = pre ++ rest /\ m (prev_of prev pre) rest <> None.
Proof.
  induction s as [|c s IH]; intros prev; simpl.
  - split.
    + destruct (m prev []) eqn:E; [|discriminate]. intros _.
      exists [], []. simpl. split; [reflexivity|congruence].
    + intros (pre & rest & E & H).
      symmetry in E. apply app_eq_nil in E as [-> ->]. simpl in H.
      destruct (m prev []); congruence.
  - split.
    + destruct (m prev (c :: s)) eqn:E.
      * intros _. exists [], (c :: s). simpl. split; [reflexivity|congruence].
      * intros H. apply IH in H as (pre & rest & -> & H).
        exists (c :: pre), rest. split; [reflexivity|exact H].
    + intros (pre & rest & E & H). destruct (m prev (c :: s)) eqn:Em;
        [reflexivity|].
      destruct pre as [|x pre]; simpl in *.
      * subst rest. congruence.
      * injection E as -> ->. apply IH. eauto.
Qed.

Lemma digit_is_word c : is_digit c = true -> is_word c = true.
Proof. intros H. unfold is_word. now rewrite H. Qed.

Lemma span_app_stop p a b :
  forallb p a = true -> span p b = 0 -> span p (a ++ b) = List.length a.
Proof.
  induction a as [|x a IH]; simpl; [auto|].
  intros H Hb. apply andb_true_iff in H as [-> H]. now rewrite IH.
Qed.

Lemma span_firstn p n s : n <= span p s -> forallb p (firstn n s) = true.
Proof.
  revert s. induction n; intros [|c s] H; simpl in *; try reflexivity.
  destruct (p c); [|lia]. apply IHn. lia.
Qed.

Lemma octet_parts a :
  is_octet a = true ->
  1 <= List.length a <= 3 /\ forallb is_digit a = true.
Proof.
  unfold is_octet. rewrite !andb_true_iff, !Nat.leb_le. tauto.
Qed.

Lemma octet_head a s :
  is_octet a = true -> exists c r, a ++ s = c :: r /\ is_digit c = true.
Proof.
  intros H. apply octet_parts in H as [[Hl _] Hd].
  destruct a as [|c a]; simpl in *; [lia|].
  apply andb_true_iff in Hd as [Hc _]. eauto.
Qed.

Lemma eat_octet_dot_sound s s' :
  eat_octet_dot s = Some s' ->
  exists a, is_octet a = true /\ s = a ++ dot :: s'.
Proof.
  unfold eat_octet_dot, eat_digits_upto.
  destruct (Nat.min 3 (span is_digit s)) as [|n] eqn:En; [discriminate|].
  destruct (skipn (S n) s) as [|c r] eqn:Es; [discriminate|].
  destruct (is_char 46 c) eqn:Ec; [|discriminate].
  intros [= <-]. apply is_char_eq in Ec. subst c.
  exists (firstn (S n) s). split.
  - unfold is_octet. rewrite span_firstn by lia.
    assert (List.length (firstn (S n) s) = S n).
    { apply firstn_length_le. pose proof (span_le is_digit s). lia. }
    rewrite H. rewrite andb_true_r, andb_true_iff, !Nat.leb_le. lia.
  - rewrite <- (firstn_skipn (S n) s) at 1. now rewrite Es.
Qed.

Lemma eat_octet_dot_complete a s' :
  is_octet a = true -> eat_octet_dot (a ++ dot :: s') = Some s'.
Proof.
  intros H. apply octet_parts in H as [[Hl Hu] Hd].
  unfold eat_octet_dot, eat_digits_upto.
  rewrite (span_app_stop is_digit a (dot :: s') Hd eq_refl).
  rewrite Nat.min_r by lia.
  destruct (List.length a) as [|n] eqn:En; [lia|].
  rewrite <- En, skipn_app, skipn_all, Nat.sub_diag. reflexivity.
Qed.

Lemma boundary_after_word_spec post :
  boundary_after_word post = negb (word_after post).
Proof. destruct post; reflexivity. Qed.

Lemma word_after_span post : word_after post = false -> span is_digit post = 0.
Proof.
  destruct post as [|c post]; simpl; [reflexivity|]. intros H.
  destruct (is_digit c) eqn:E; [|reflexivity].
  apply digit_is_word in E. congruence.
Qed.

Lemma word_boundary_digit prev c s :
  is_digit c = true ->
  word_boundary prev (c :: s) = negb (is_word_opt prev).
Proof.
  intros H. unfold word_boundary, is_word_opt.
  rewrite (digit_is_word c H). destruct prev as [x|]; [|reflexivity].
  now destruct (is_word x).
Qed.

(** What the matcher accepts at a position is a dotted quad between two
    word boundaries. *)
Lemma ip_pattern_sound prev s k :
  ip_pattern prev s = Some k ->
  exists q post,
    s = q ++ post /\ dotted_quad q /\ k = List.length q
    /\ is_word_opt prev = false /\ word_after post = false.
Proof.
  unfold ip_pattern. destruct (word_boundary prev s) eqn:Hb; [|discriminate].
  destruct (eat_octet_dot s) as [s1|] eqn:E1; [|discriminate].
  destruct (eat_octet_dot s1) as [s2|] eqn:E2; [|discriminate].
  destruct (eat_octet_dot s2) as [s3|] eqn:E3; [|discriminate].
  destruct (eat_digits_upto 3 s3) as [|n] eqn:En; [discriminate|].
  destruct (boundary_after_word (skipn (S n) s3)) eqn:Ha; [|discriminate].
  intros [= <-].
  apply eat_octet_dot_sound in E1 as (a & Ha1 & ->).
  apply eat_octet_dot_sound in E2 as (b & Hb1 & ->).
  apply eat_octet_dot_sound in E3 as (c & Hc1 & ->).
  unfold eat_digits_upto in En.
  assert (Hlen : List.length (firstn (S n) s3) = S n).
  { apply firstn_length_le. pose proof (span_le is_digit s3). lia. }
  assert (Hd1 : is_octet (firstn (S n) s3) = true).
  { unfold is_octet. rewrite span_firstn by lia. rewrite Hlen.
    rewrite andb_true_r, andb_true_iff, !Nat.leb_le. lia. }
  exists (a ++ dot :: b ++ dot :: c ++ dot :: firstn (S n) s3), (skipn (S n) s3).
  split; [|split; [|split; [|split]]].
  - rewrite <- (firstn_skipn (S n) s3) at 1.
    repeat (rewrite <- app_assoc; simpl). reflexivity.
  - now constructor.
  - rewrite !length_app. simpl. rewrite !length_app. simpl.
    rewrite !length_app. simpl. rewrite Hlen. lia.
  - destruct (octet_head a (dot :: b ++ dot :: c ++ dot :: s3) Ha1)
      as (x & r & Ex & Hx).
    rewrite Ex, (word_boundary_digit _ _ _ Hx) in Hb.
    now apply negb_true_iff in Hb.
  - rewrite boundary_after_word_spec in Ha. now apply negb_true_iff in Ha.
Qed.

Lemma ip_pattern_complete prev q post :
  dotted_quad q -> is_word_opt prev = false -> word_after post = false ->
  ip_pattern prev (q ++ post) = Some (List.length q).
Proof.
  intros [a b c d Ha Hb Hc Hd] Hprev Hpost. unfold ip_pattern.
  repeat (rewrite <- app_assoc; simpl).
  destruct (octet_head a (dot :: b ++ dot :: c ++ dot :: d ++ post) Ha)
    as (x & r & Ex & Hx).
  rewrite Ex at 1. rewrite (word_boundary_digit _ _ _ Hx), Hprev. simpl.
  rewrite !eat_octet_dot_complete by assumption.
  apply octet_parts in Hd as [[Hl Hu] Hdig].
  unfold eat_digits_upto.
  rewrite (span_app_stop is_digit d post Hdig (word_after_span _ Hpost)).
  rewrite Nat.min_r by lia.
  destruct (List.length d) as [|n] eqn:En; [lia|].
  rewrite <- En, skipn_app, skipn_all, Nat.sub_diag, skipn_O. simpl.
  rewrite boundary_after_word_spec, Hpost. simpl. f_equal.
  rewrite !length_app. simpl. rewrite !length_app. simpl.
  rewrite !length_app. simpl. rewrite !length_app. lia.
Qed.

(** The search succeeds exactly on the URL texts in which a dotted quad
    occurs between word boundaries. *)
Lemma ip_search_spec url : re_search ip_pattern url = true <-> ip_occurs url.
Proof.
  unfold re_search. rewrite re_search_from_spec. split.
  - intros (pre & rest & -> & H).
    destruct (ip_pattern (prev_of None pre) rest) as [k|] eqn:E; [|congruence].
    apply ip_pattern_sound in E as (q & post & -> & Hq & _ & Hp & Ha).
    exists pre, q, post. auto.
  - intros (pre & q & post & -> & Hq & Hp & Ha).
    exists pre, (q ++ post). split; [reflexivity|].
    rewrite (ip_pattern_complete _ _ _ Hq Hp Ha). discriminate.
Qed.

(** C6, as amended: feature 1 is a binary signal of a dotted quad (four
    groups of one to three digits separated by dots, between word
    boundaries) anywhere in the URL text, not only in its host: it is [1]
    when one occurs and [-1] otherwise.  Feature 2 is the length bucket.
    For [http://192.168.0.1/login] feature 1 is [1] and feature 2 is [-1]
    (24 characters, fewer than 54). *)
Theorem ip_feature_scans_url_text ck self url v :
  extract_features ck self url = Ok v ->
  (ip_occurs url -> nth_error v 0 = Some 1%Z)
  /\ (~ ip_occurs url -> nth_error v 0 = Some (-1)%Z)
  /\ nth_error v 1 = Some (_get_url_length_category (len url))
  /\ (exists w,
        extract_features ck self (str "http://192.168.0.1/login") = Ok w
        /\ nth_error w 0 = Some 1%Z /\ nth_error w 1 = Some (-1)%Z
        /\ len (str "http://192.168.0.1/login") = 24%Z).
Proof.
  intros Hv. destruct (UrlParse.netloc ck url) as [nl|e] eqn:Hnl;
    [|rewrite (extract_features_raise _ _ _ _ Hnl) in Hv; discriminate].
  rewrite (extract_features_ok _ _ _ _ Hnl) in Hv. injection Hv as <-.
  split; [|split; [|split]].
  - intros H. apply ip_search_spec in H. simpl. unfold _has_ip_address.
    now rewrite H.
  - intros H. simpl. unfold _has_ip_address.
    destruct (re_search ip_pattern url) eqn:E; [|reflexivity].
    apply ip_search_spec in E. contradiction.
  - reflexivity.
  - destruct (UrlParseFacts.netloc_without_brackets ck
                (str "http://192.168.0.1/login") eq_refl eq_refl) as [nl' Hn].
    rewrite (extract_features_ok _ _ _ _ Hn). eexists.
    split; [reflexivity|]. repeat split.
Qed.

Lemma ip_feature_scans_url_text_witness :
  extract_features (fun _ => true) init (str "http://example.com/1.2.3.4")
  = Ok ([1; -1; -1; -1; -1; -1; -1] ++ repeat 0 23)%Z
  /\ (ip_occurs (str "http://example.com/1.2.3.4") ->
      nth_error ([1; -1; -1; -1; -1; -1; -1] ++ repeat 0 23)%Z 0 = Some 1%Z).
Proof.
  split; [vm_compute; reflexivity|].
  apply (ip_feature_scans_url_text (fun _ => true) init
           (str "http://example.com/1.2.3.4")
           ([1; -1; -1; -1; -1; -1; -1] ++ repeat 0 23)%Z).
  vm_compute; reflexivity.
Defined.

(** C6, as stated, fails: the host of [http://example.com/1.2.3.4] holds no
    dotted quad, yet feature 1 is [1], because the path does. *)
Lemma ip_in_path_sets_feature :
  UrlParse.netloc (fun _ => true) (str "http://example.com/1.2.3.4")
  = Ok (str "example.com")
  /\ ~ ip_occurs (str "example.com")
  /\ exists v,
       extract_features (fun _ => true) init (str "http://example.com/1.2.3.4")
       = Ok v
       /\ nth_error v 0 = Some 1%Z.
Proof.
  split; [vm_compute; reflexivity|]. split.
  - intros H. apply ip_search_spec in H. vm_compute in H. discriminate.
  - eexists. split; [vm_compute; reflexivity|reflexivity].
Qed.

End URLClassifierFacts.

(** ** Where [urlsplit] finds a host *)

Module UrlShapeFacts.

Import UrlParse URLClassifierSpec.













End UrlShapeFacts.

(** ** Floating-point comparison *)

Lemma SFcompare_antisym x y :
  SFcompare y x = option_map CompOpp (SFcompare x y).
Proof.
  destruct x as [sx|sx| |sx mx ex], y as [sy|sy| |sy my ey]; simpl;
    try reflexivity;
    try (destruct sx; reflexivity); try (destruct sy; reflexivity);
    try (destruct sx, sy; reflexivity).
  rewrite (Z.compare_antisym ex ey).
  change PosDef.Pos.compare_cont with Pos.compare_cont.
  pose proof (Pos.compare_cont_antisym mx my Eq) as H. simpl in H.
  destruct sx, sy; simpl; try reflexivity;
    destruct (ex ?= ey)%Z; simpl; try reflexivity.
  - rewrite <- H. now destruct (Pos.compare_cont Eq mx my).
  - now rewrite <- H.
Qed.

(** [x < y] excludes [y <= x]. *)
Lemma float_ltb_not_leb x y :
  PrimFloat.ltb x y = true -> PrimFloat.leb y x = false.
Proof.
  rewrite ltb_spec, leb_spec. unfold SFltb, SFleb.
  rewrite (SFcompare_antisym (Prim2SF x) (Prim2SF y)).
  destruct (SFcompare (Prim2SF x) (Prim2SF y)) as [[]|]; simpl; congruence.
Qed.

(** ** The request validator *)

Module InputValidatorFacts.

Import InputValidator.

Section Validation.

Variable url_pattern_match : text -> bool.
Variable check_bracketed : text -> bool.

Lemma nonempty_fields (fields : gmap string jval) key v :
  fields !! key = Some v -> bool_decide (fields = ∅) = false.
Proof.
  intros H. apply bool_decide_eq_false. intros ->.
  rewrite lookup_empty in H. discriminate.
Qed.

Lemma validate_object fields txt ty :
  fields !! "text"%string = Some txt ->
  fields !! "type"%string = Some (JStr ty) ->
  existsb (text_eqb ty) valid_types = true ->
  validate_prediction_input url_pattern_match check_bracketed
    (ItemObject fields)
  = let text_validation :=
      _validate_text_content url_pattern_match check_bracketed txt ty in
    if is_valid text_validation then valid else text_validation.
Proof.
  intros Ht Hy Hv. unfold validate_prediction_input.
  rewrite (nonempty_fields _ _ _ Ht), Ht, Hy, Hv. reflexivity.
Qed.

(** C10, as amended: an email request whose trimmed text has fewer than
    two whitespace-separated words is always rejected.  The error is
    ['Email content must contain at least 2 words'] exactly when the
    trimmed text has 3 to 10000 characters.  Otherwise an earlier check
    answers: an empty text is not a non-empty string, a text of whitespace
    only is empty, a trimmed text of one or two characters is too short,
    and one of more than 10000 characters is too long. *)
Theorem single_word_email_rejected fields txt :
  fields !! "type"%string = Some (JStr (str "email")) ->
  fields !! "text"%string = Some (JStr txt) ->
  List.length (split (strip txt)) < 2 ->
  is_valid (validate_prediction_input url_pattern_match check_bracketed
              (ItemObject fields)) = false
  /\ ((3 <= len (strip txt) <= 10000)%Z ->
      validate_prediction_input url_pattern_match check_bracketed
        (ItemObject fields)
      = invalid "Email content must contain at least 2 words")
  /\ (validate_prediction_input url_pattern_match check_bracketed
        (ItemObject fields)
      = invalid "Email content must contain at least 2 words" ->
      (3 <= len (strip txt) <= 10000)%Z)
  /\ (txt = [] ->
      validate_prediction_input url_pattern_match check_bracketed
        (ItemObject fields)
      = invalid "Text content must be a non-empty string")
  /\ (txt <> [] -> strip txt = [] ->
      validate_prediction_input url_pattern_match check_bracketed
        (ItemObject fields)
      = invalid "Text content cannot be empty")
  /\ ((0 < len (strip txt) < 3)%Z ->
      validate_prediction_input url_pattern_match check_bracketed
        (ItemObject fields)
      = invalid "Text content is too short (min 3 characters)")
  /\ ((10000 < len (strip txt))%Z ->
      validate_prediction_input url_pattern_match check_bracketed
        (ItemObject fields)
      = invalid "Text content is too long (max 10,000 characters)").
Proof.
  intros Hy Ht Hw.
  rewrite (validate_object fields (JStr txt) (str "email") Ht Hy eq_refl).
  unfold _validate_text_content. cbv zeta.
  assert (Hdiff : forall a b : string,
            error (invalid a) <> error (invalid b) -> invalid a = invalid b ->
            (3 <= len (strip txt) <= 10000)%Z).
  { intros a b Hab E. now rewrite E in Hab. }
  destruct txt as [|c txt].
  { change (len (strip [])) with 0%Z.
    split; [reflexivity|]. split; [lia|].
    split; [apply Hdiff; discriminate|]. split; [reflexivity|].
    split; [congruence|]. split; lia. }
  destruct (strip (c :: txt)) as [|d t] eqn:Es.
  { change (len []) with 0%Z.
    split; [reflexivity|]. split; [lia|].
    split; [apply Hdiff; discriminate|]. split; [discriminate|].
    split; [reflexivity|]. split; lia. }
  rewrite <- Es in *.
  assert (Hpos : (0 < len (strip (c :: txt)))%Z).
  { rewrite Es. unfold len. simpl List.length. lia. }
  assert (Hne : strip (c :: txt) <> []) by (rewrite Es; discriminate).
  destruct (Z.ltb_spec 10000 (len (strip (c :: txt)))) as [E1|E1].
  { split; [reflexivity|]. split; [lia|].
    split; [apply Hdiff; discriminate|]. split; [discriminate|].
    split; [intros _ H; contradiction|]. split; [lia|reflexivity]. }
  destruct (Z.ltb_spec (len (strip (c :: txt))) 3) as [E2|E2].
  { split; [reflexivity|]. split; [lia|].
    split; [apply Hdiff; discriminate|]. split; [discriminate|].
    split; [intros _ H; contradiction|]. split; [reflexivity|lia]. }
  change (text_eqb (str "email") (str "email")) with true. cbv iota.
  unfold _validate_email_content.
  apply Nat.ltb_lt in Hw. rewrite Hw. simpl.
  split; [reflexivity|]. split; [reflexivity|].
  split; [lia|]. split; [discriminate|].
  split; [intros _ H; contradiction|]. split; lia.
Qed.

End Validation.

Lemma single_word_email_rejected_witness :
  let fields : gmap string jval :=
    <["text"%string := JStr (str "  hello  ")]>
      (<["type"%string := JStr (str "email")]> ∅) in
  List.length (split (strip (str "  hello  "))) < 2
  /\ (3 <= len (strip (str "  hello  ")) <= 10000)%Z
  /\ validate_prediction_input (fun _ => false) (fun _ => true)
       (ItemObject fields)
     = invalid "Email content must contain at least 2 words".
Proof.
  intros fields.
  split; [vm_compute; lia|]. split; [vm_compute; split; discriminate|].
  apply (single_word_email_rejected (fun _ => false) (fun _ => true)
           fields (str "  hello  ")).
  - reflexivity.
  - reflexivity.
  - vm_compute; lia.
  - vm_compute; split; discriminate.
Defined.

(** C10, as stated, fails: the email texts [hi] and three spaces have
    fewer than two words, yet neither is answered with the word-count
    error; the length checks come first. *)
Lemma short_email_gets_length_error :
  List.length (split (strip (str "hi"))) < 2
  /\ validate_prediction_input (fun _ => false) (fun _ => true)
       (ItemObject (<["text"%string := JStr (str "hi")]>
                      (<["type"%string := JStr (str "email")]> ∅)))
     = invalid "Text content is too short (min 3 characters)"
  /\ List.length (split (strip (str "   "))) < 2
  /\ validate_prediction_input (fun _ => false) (fun _ => true)
       (ItemObject (<["text"%string := JStr (str "   ")]>
                      (<["type"%string := JStr (str "email")]> ∅)))
     = invalid "Text content cannot be empty"
  /\ invalid "Text content is too short (min 3 characters)"
     <> invalid "Email content must contain at least 2 words"
  /\ invalid "Text content cannot be empty"
     <> invalid "Email content must contain at least 2 words".
Proof.
  split; [vm_compute; lia|]. split; [vm_compute; reflexivity|].
  split; [vm_compute; lia|]. split; [vm_compute; reflexivity|].
  split; intros H; apply (f_equal error) in H; discriminate H.
Qed.

(** A two-character text is stopped earlier, by the length check. *)
Example two_characters_too_short :
  validate_prediction_input (fun _ => false) (fun _ => true)
    (ItemObject (<["text"%string := JStr (str "hi")]>
                   (<["type"%string := JStr (str "email")]> ∅)))
  = invalid "Text content is too short (min 3 characters)".
Proof. vm_compute. reflexivity. Qed.

(** A script element is refused before the text reaches the classifier. *)
Example script_element_rejected :
  validate_prediction_input (fun _ => false) (fun _ => true)
    (ItemObject
       (<["text"%string := JStr (str "<script>alert(1)</script> hello there")]>
          (<["type"%string := JStr (str "email")]> ∅)))
  = invalid "Email content contains potentially malicious patterns".
Proof. vm_compute. reflexivity. Qed.

End InputValidatorFacts.

(** ** The prediction service *)

Module PredictionServiceFacts.

Import PredictionService PredictionServiceSpec URLClassifierSpec.


(** The two thresholds are positive binary64 numbers of exponent -53. *)
Lemma threshold_medium :
  Prim2SF 0.6%float = S754_finite false 5404319552844595 (-53).
Proof. vm_compute. reflexivity. Qed.

Lemma threshold_high :
  Prim2SF 0.8%float = S754_finite false 7205759403792794 (-53).
Proof. vm_compute. reflexivity. Qed.

Lemma threshold_mantissas : (5404319552844595 <= 7205759403792794)%positive.
Proof. vm_compute. discriminate. Qed.

(** Below the lower of two positive numbers of one exponent is not at or
    above the higher. *)
Lemma spec_float_below (x : spec_float) (m6 m8 : positive) (e0 : Z) :
  (m6 <= m8)%positive ->
  SFltb x (S754_finite false m6 e0) = true ->
  SFleb (S754_finite false m8 e0) x = false.
Proof.
  intros Hm. unfold SFltb, SFleb, SFcompare.
  destruct x as [s|s| |s m e]; try congruence;
    try (destruct s; congruence).
  destruct s; [congruence|].
  change (PosDef.Pos.compare_cont Eq) with Pos.compare.
  rewrite (Z.compare_antisym e e0).
  destruct (e ?= e0)%Z; simpl; try congruence.
  rewrite (Pos.compare_antisym m m8).
  destruct (Pos.compare_spec m m6) as [E1|L1|G1]; try congruence.
  intros _.
  destruct (Pos.compare_spec m m8) as [E2|L2|G2]; try reflexivity; lia.
Qed.

(** A confidence below 0.6 is not 0.8 or more. *)
Lemma below_medium_not_high conf :
  PrimFloat.ltb conf 0.6%float = true -> PrimFloat.leb 0.8%float conf = false.
Proof.
  rewrite ltb_spec, leb_spec, threshold_medium, threshold_high.
  apply spec_float_below, threshold_mantissas.
Qed.

(** C4: the risk level is a total function of the label and the
    confidence; for every confidence in [0, 1], Safe gives Low, Phishing
    gives High from 0.8 on, Medium from 0.6 and below 0.8, and Low below
    0.6. *)
Theorem risk_level_table (conf : float) :
  PrimFloat.leb 0%float conf = true ->
  PrimFloat.leb conf 1%float = true ->
  _calculate_risk_level conf (is_phishing Safe) = Low
  /\ (PrimFloat.leb 0.8%float conf = true ->
      _calculate_risk_level conf (is_phishing Phishing) = High)
  /\ (PrimFloat.leb 0.6%float conf = true ->
      PrimFloat.ltb conf 0.8%float = true ->
      _calculate_risk_level conf (is_phishing Phishing) = Medium)
  /\ (PrimFloat.ltb conf 0.6%float = true ->
      _calculate_risk_level conf (is_phishing Phishing) = Low).
Proof.
  intros _ _. unfold _calculate_risk_level, is_phishing, negb.
  split; [reflexivity|]. split; [|split].
  - now intros ->.
  - intros H6 H8. apply float_ltb_not_leb in H8. now rewrite H8, H6.
  - intros H6. rewrite (below_medium_not_high conf H6).
    now rewrite (float_ltb_not_leb _ _ H6).
Qed.

Lemma risk_level_table_witness :
  PrimFloat.leb 0%float 0.7%float = true
  /\ PrimFloat.leb 0.7%float 1%float = true
  /\ _calculate_risk_level 0.7%float (is_phishing Safe) = Low
  /\ _calculate_risk_level 0.7%float (is_phishing Phishing) = Medium.
Proof.
  split; [reflexivity|]. split; [reflexivity|].
  destruct (risk_level_table 0.7%float eq_refl eq_refl) as (HS & _ & HM & _).
  split; [exact HS|]. apply HM; reflexivity.
Defined.

(** The boundary values belong to the higher tier. *)
Example risk_level_boundaries :
  _calculate_risk_level 0.8%float true = High
  /\ _calculate_risk_level 0.6%float true = Medium
  /\ _calculate_risk_level 1%float true = High
  /\ _calculate_risk_level 0%float true = Low
  /\ _calculate_risk_level 1%float false = Low.
Proof. repeat split. Qed.

(** *** The label convention *)

Lemma predict_email_assembles {X} (self : t X) txt n conf :
  EmailClassifier.predict (email_classifier self)
    (TextPreprocessor.preprocess_email txt) = Ok (n, conf) ->
  _predict_email self txt
  = Ok (assemble Email
          (Some (firstn 100 (TextPreprocessor.preprocess_email txt))) n conf).
Proof. intros H. unfold _predict_email. rewrite H. reflexivity. Qed.

Lemma predict_url_assembles {X} ck (self : t X) url v n conf :
  URLClassifier.extract_features ck (url_classifier self) url = Ok v ->
  URLClassifier.predict (url_classifier self) v = Ok (n, conf) ->
  _predict_url ck self url = Ok (assemble Url None n conf).
Proof. intros Hv H. unfold _predict_url. rewrite Hv. simpl. rewrite H. reflexivity. Qed.

Lemma is_phishing_map n : is_phishing (map_prediction n) = (n =? 1)%Z.
Proof. unfold map_prediction. now destruct (n =? 1)%Z. Qed.

(** C5, as amended: the mapping from the raw label to the semantic label
    is one fixed convention, the same for email and url: raw label 1 is
    Phishing and every other raw label is Safe.  No mapping table comes
    with the loaded model and nothing is rejected on account of the
    mapping: whenever the classifier yields a raw label, the prediction is
    returned with the label that the convention gives. *)
Theorem label_convention_is_fixed {X} ck (self : t X) txt n conf :
  (EmailClassifier.predict (email_classifier self)
     (TextPreprocessor.preprocess_email txt) = Ok (n, conf) ->
   exists r,
     _predict_email self txt = Ok r
     /\ raw_prediction r = n
     /\ prediction_label r = (if (n =? 1)%Z then Phishing else Safe)
     /\ risk_level r = _calculate_risk_level conf (n =? 1)%Z)
  /\ (forall v,
        URLClassifier.extract_features ck (url_classifier self) txt = Ok v ->
        URLClassifier.predict (url_classifier self) v = Ok (n, conf) ->
        exists r,
          _predict_url ck self txt = Ok r
          /\ raw_prediction r = n
          /\ prediction_label r = (if (n =? 1)%Z then Phishing else Safe)
          /\ risk_level r = _calculate_risk_level conf (n =? 1)%Z).
Proof.
  split.
  - intros H. rewrite (predict_email_assembles _ _ _ _ H). eexists.
    split; [reflexivity|]. simpl. rewrite is_phishing_map. auto.
  - intros v Hv H. rewrite (predict_url_assembles _ _ _ _ _ _ Hv H). eexists.
    split; [reflexivity|]. simpl. rewrite is_phishing_map. auto.
Qed.

Lemma label_convention_is_fixed_witness :
  EmailClassifier.predict (email_classifier demo_service)
    (TextPreprocessor.preprocess_email (str "verify your account"))
  = Ok (0%Z, 0.9%float)
  /\ exists r,
       _predict_email demo_service (str "verify your account") = Ok r
       /\ raw_prediction r = 0%Z
       /\ prediction_label r = Safe.
Proof.
  split; [vm_compute; reflexivity|].
  destruct (proj1 (label_convention_is_fixed (fun _ => true) demo_service
                     (str "verify your account") 0%Z 0.9%float))
    as [r (Hr & Hraw & Hl & _)]; [vm_compute; reflexivity|].
  exists r. auto.
Defined.

(** C5, as stated, fails: the service is loaded without any mapping table,
    nothing is verified and nothing is rejected; the label follows the
    built-in convention even where the model's own encoding says the
    opposite. *)
Lemma label_convention_is_hard_coded :
  load_models demo_disk init = (demo_service, Ok tt)
  /\ exists r,
       predict_text (fun _ => true) demo_service
         (str "verify your account") (str "email") = Ok r
       /\ raw_prediction r = 0%Z
       /\ prediction_label r = Safe
       /\ alphabetical_table (raw_prediction r) = Phishing
       /\ prediction_label r <> alphabetical_table (raw_prediction r).
Proof.
  split; [reflexivity|]. eexists. split; [vm_compute; reflexivity|].
  repeat split. discriminate.
Qed.

(** *** Loading *)

Lemma load_models_ok {X} (disk : saved_models X) self :
  load_succeeds disk ->
  snd (load_models disk self) = Ok tt
  /\ models_loaded (fst (load_models disk self)) = true
  /\ both_loaded (fst (load_models disk self)).
Proof.
  intros (Hd & [m Hm] & [v Hv] & [u Hu]).
  unfold load_models, EmailClassifier.load_model, URLClassifier.load_model,
    both_loaded.
  rewrite Hd, Hm, Hv, Hu. simpl. auto.
Qed.

Lemma load_models_fail {X} (disk : saved_models X) self :
  ~ load_succeeds disk ->
  (exists e, snd (load_models disk self) = Raise e)
  /\ models_loaded (fst (load_models disk self)) = models_loaded self
  /\ (both_loaded self -> both_loaded (fst (load_models disk self))).
Proof.
  intros Hn.
  unfold load_models, EmailClassifier.load_model, URLClassifier.load_model,
    both_loaded.
  destruct (dir_exists disk) eqn:Hd; simpl;
    [|split; [eauto|split; [reflexivity|tauto]]].
  destruct (email_classifier_pkl disk) as [m|e1] eqn:Hm; simpl;
    [|split; [eauto|split; [reflexivity|tauto]]].
  destruct (email_vectorizer_pkl disk) as [v|e2] eqn:Hv; simpl;
    [|split; [eauto|split; [reflexivity|tauto]]].
  destruct (url_classifier_pkl disk) as [u|e3] eqn:Hu; simpl;
    [|split; [eauto|split; [reflexivity|tauto]]].
  exfalso. apply Hn. unfold load_succeeds. rewrite Hd, Hm, Hv, Hu. eauto 10.
Qed.

Lemma load_succeeds_dec {X} (disk : saved_models X) :
  load_succeeds disk \/ ~ load_succeeds disk.
Proof.
  unfold load_succeeds.
  destruct (dir_exists disk); [|right; intros (H & _); discriminate].
  destruct (email_classifier_pkl disk);
    [|right; intros (_ & [? H] & _); discriminate].
  destruct (email_vectorizer_pkl disk);
    [|right; intros (_ & _ & [? H] & _); discriminate].
  destruct (url_classifier_pkl disk);
    [|right; intros (_ & _ & _ & [? H]); discriminate].
  left. eauto 10.
Qed.

Lemma reachable_loaded {X} (self : t X) :
  reachable self -> models_loaded self = true -> both_loaded self.
Proof.
  induction 1 as [|disk self Hr IH]; [discriminate|].
  destruct (load_succeeds_dec disk) as [Hs|Hf].
  - intros _. apply (load_models_ok disk self Hs).
  - destruct (load_models_fail disk self Hf) as (_ & Hm & Hb).
    rewrite Hm. auto.
Qed.

(** C8: a call of [predict] on a service whose models are not loaded
    raises ["Models not loaded"]; the flag is set only by a load in which
    the email classifier and the url classifier both loaded, so a service
    that carries the flag has both; and a load that fails leaves the flag
    as it was, so a service that was not loaded stays so and keeps
    refusing. *)
Theorem models_loaded_only_when_both {X} ck (self : t X) :
  reachable self ->
  (models_loaded self = true -> both_loaded self)
  /\ (models_loaded self = false ->
      forall txt ty,
        predict ck self txt ty = Raise (RuntimeError "Models not loaded"))
  /\ (forall disk,
        models_loaded self = false ->
        (models_loaded (fst (load_models disk self)) = true
         <-> load_succeeds disk)
        /\ (~ load_succeeds disk ->
            (exists e, snd (load_models disk self) = Raise e)
            /\ forall txt ty,
                 predict ck (fst (load_models disk self)) txt ty
                 = Raise (RuntimeError "Models not loaded"))).
Proof.
  intros Hr. split; [apply reachable_loaded, Hr|]. split.
  - intros Hm txt ty. unfold predict, predict_text. now rewrite Hm.
  - intros disk Hm. split; [split|].
    + intros Ht. destruct (load_succeeds_dec disk) as [Hs|Hf]; [exact Hs|].
      destruct (load_models_fail disk self Hf) as (_ & Hk & _). congruence.
    + intros Hs. apply (load_models_ok disk self Hs).
    + intros Hf. destruct (load_models_fail disk self Hf) as (He & Hk & _).
      split; [exact He|]. intros txt ty. unfold predict, predict_text.
      now rewrite Hk, Hm.
Qed.

Lemma models_loaded_only_when_both_witness :
  reachable (fst (load_models email_only_disk init))
  /\ EmailClassifier.is_loaded
       (email_classifier (fst (load_models email_only_disk init))) = true
  /\ models_loaded (fst (load_models email_only_disk init)) = false
  /\ predict (fun _ => true) (fst (load_models email_only_disk init))
       (str "verify your account") (str "email")
     = Raise (RuntimeError "Models not loaded").
Proof.
  split; [apply reach_load, reach_init|]. split; [reflexivity|].
  split; [reflexivity|].
  apply (models_loaded_only_when_both (fun _ => true)
           (fst (load_models email_only_disk init))
           (reach_load email_only_disk init reach_init)).
  reflexivity.
Defined.

(** *** URLs without a scheme *)



(** Texts in which [//] comes later, or follows a scheme without a host,
    have no host either. *)
Example late_slashes_have_no_host :
  UrlParse.netloc (fun _ => true) (str "a-b.c.d.e/x//y") = Ok []
  /\ UrlParse.netloc (fun _ => true) (str "host/redirect?u=http://x")
     = Ok []
  /\ UrlParse.netloc (fun _ => true) (str "ftp:///a-b.c.d.e") = Ok [].
Proof. repeat split; vm_compute; reflexivity. Qed.

(** Two leading slashes are enough for a host. *)
Example leading_slashes_have_host :
  UrlParse.netloc (fun _ => true) (str "//a-b.c.d.e/x")
  = Ok (str "a-b.c.d.e").
Proof. vm_compute. reflexivity. Qed.

End PredictionServiceFacts.

(** ** The batch endpoint *)

Module RoutesFacts.

Import Routes RoutesSpec PredictionServiceSpec.

Lemma fold_left_append {A B C} (f : A -> B -> C) l :
  forall acc,
    fold_left (fun results '(i, item) => results ++ [f i item]) l acc
    = acc ++ map (fun p => f (fst p) (snd p)) l.
Proof.
  induction l as [|[i item] l IH]; intros acc; simpl.
  - now rewrite app_nil_r.
  - rewrite IH, <- app_assoc. reflexivity.
Qed.

Lemma enumerate_length {A} (l : list A) :
  List.length (enumerate l) = List.length l.
Proof.
  unfold enumerate. rewrite length_combine, length_seq. apply Nat.min_id.
Qed.

Lemma nth_error_combine_seq {A} (l : list A) :
  forall start i x,
    nth_error l i = Some x ->
    nth_error (combine (seq start (List.length l)) l) i = Some (start + i, x).
Proof.
  induction l as [|y l IH]; intros start [|i] x H; simpl in *;
    try discriminate.
  - injection H as ->. now rewrite Nat.add_0_r.
  - rewrite (IH (S start) i x H). f_equal. f_equal. lia.
Qed.

Lemma nth_error_enumerate {A} (l : list A) i x :
  nth_error l i = Some x -> nth_error (enumerate l) i = Some (i, x).
Proof. intros H. apply (nth_error_combine_seq l 0 i x H). Qed.

Section Api.

Variable X : Type.
Variable url_pattern_match : text -> bool.
Variable check_bracketed : text -> bool.
Variable round4 : float -> float.

Local Abbreviation validate :=
  (InputValidator.validate_prediction_input url_pattern_match check_bracketed).
Local Abbreviation item_result := (process_item url_pattern_match check_bracketed round4).
Local Abbreviation item_results := (process_items url_pattern_match check_bracketed round4).
Local Abbreviation endpoint := (api_batch_predict url_pattern_match check_bracketed round4).

(** The loop appends one result per item, in the order of the items. *)
Lemma process_items_map (svc : PredictionService.t X) items :
  item_results svc items
  = map (fun p => item_result svc (fst p) (snd p)) (enumerate items).
Proof. unfold process_items. now rewrite fold_left_append. Qed.

Lemma process_items_length (svc : PredictionService.t X) items :
  List.length (item_results svc items) = List.length items.
Proof. now rewrite process_items_map, length_map, enumerate_length. Qed.

Lemma process_items_nth (svc : PredictionService.t X) items i item :
  nth_error items i = Some item ->
  nth_error (item_results svc items) i = Some (item_result svc i item).
Proof.
  intros H. rewrite process_items_map, nth_error_map.
  now rewrite (nth_error_enumerate items i item H).
Qed.

Lemma process_item_index (svc : PredictionService.t X) i item :
  index (item_result svc i item) = i.
Proof.
  unfold process_item.
  destruct (negb _); [reflexivity|].
  destruct (item_field "text" item) as [[txt|]|]; try reflexivity.
  destruct (item_field "type" item) as [[ty|]|]; try reflexivity.
  destruct (PredictionService.predict _ _ _ _); reflexivity.
Qed.

(** An item that fails validation yields a failure with the validator's
    message; an item whose prediction raises yields a processing error. *)
Lemma process_item_invalid (svc : PredictionService.t X) i item :
  InputValidator.is_valid (validate item) = false ->
  item_result svc i item
  = {| index := i; success := false; data := None;
       error := InputValidator.error (validate item) |}.
Proof. intros H. unfold process_item. now rewrite H. Qed.

Lemma process_item_raises (svc : PredictionService.t X) i item txt ty e :
  InputValidator.is_valid (validate item) = true ->
  item_field "text" item = Some (JStr txt) ->
  item_field "type" item = Some (JStr ty) ->
  PredictionService.predict check_bracketed svc txt ty = Raise e ->
  item_result svc i item = failure i "Processing error".
Proof.
  intros Hv Ht Hy He. unfold process_item. now rewrite Hv, Ht, Hy, He.
Qed.

Lemma accepted_batch (svc : PredictionService.t X) items :
  1 <= List.length items <= 50 ->
  endpoint (Some svc) (BodyItems items)
  = BatchResponse (item_results svc items) (List.length items)
      (List.length (filter success (item_results svc items))).
Proof.
  intros [Hlo Hhi]. unfold api_batch_predict.
  destruct (Nat.eqb_spec (List.length items) 0) as [E|_]; [lia|].
  destruct (Nat.ltb_spec 50 (List.length items)) as [E|_]; [lia|].
  reflexivity.
Qed.

(** A validated item is an object whose text and type are strings, so the
    two subscripts of the loop body cannot fail. *)
Lemma valid_item_shape item :
  InputValidator.is_valid (validate item) = true ->
  exists txt ty,
    item_field "text" item = Some (JStr txt)
    /\ item_field "type" item = Some (JStr ty).
Proof.
  unfold InputValidator.validate_prediction_input.
  destruct item as [fields|s|elems|truthy]; cbn [item_field].
  - destruct (bool_decide (fields = ∅)); [discriminate|].
    destruct (fields !! "text"%string) as [txt|]; [|discriminate].
    destruct (fields !! "type"%string) as [[ty|]|]; try discriminate.
    destruct (existsb (text_eqb ty) InputValidator.valid_types);
      [|discriminate].
    destruct txt as [txt|]; [eauto|discriminate].
  - destruct s; [discriminate|].
    destruct (negb _); [discriminate|]. destruct (negb _); discriminate.
  - destruct elems; [discriminate|].
    destruct (negb _); [discriminate|]. destruct (negb _); discriminate.
  - destruct truthy; discriminate.
Qed.

(** C3: for a batch of 1 to 50 items the endpoint returns exactly one
    result per item, the result at position [i] carries index [i] and is
    what the loop body yields for item [i] alone; an item that fails
    validation, or whose classification raises, yields a failure at its
    index, and the other items are processed all the same. *)
Theorem batch_results_aligned (svc : PredictionService.t X) items :
  1 <= List.length items <= 50 ->
  exists results,
    endpoint (Some svc) (BodyItems items)
    = BatchResponse results (List.length items)
        (List.length (filter success results))
    /\ List.length results = List.length items
    /\ forall i item,
         nth_error items i = Some item ->
         exists r,
           nth_error results i = Some r
           /\ index r = i
           /\ r = item_result svc i item
           /\ (InputValidator.is_valid (validate item) = false ->
               success r = false
               /\ error r = InputValidator.error (validate item))
           /\ (forall txt ty e,
                 InputValidator.is_valid (validate item) = true ->
                 item_field "text" item = Some (JStr txt) ->
                 item_field "type" item = Some (JStr ty) ->
                 PredictionService.predict check_bracketed svc txt ty
                 = Raise e ->
                 success r = false /\ error r = Some "Processing error"%string).
Proof.
  intros Hn. exists (item_results svc items).
  split; [apply accepted_batch, Hn|].
  split; [apply process_items_length|].
  intros i item Hi. exists (item_result svc i item).
  split; [apply process_items_nth, Hi|].
  split; [apply process_item_index|]. split; [reflexivity|]. split.
  - intros Hv. rewrite (process_item_invalid svc i item Hv). auto.
  - intros txt ty e Hv Ht Hy He.
    rewrite (process_item_raises svc i item txt ty e Hv Ht Hy He). auto.
Qed.

(** C7: an empty batch and a batch of more than 50 items are rejected as a
    whole, with an error response that carries no per-item results; a
    batch of 1 to 50 items is accepted and processed item by item. *)
Theorem batch_size_limit (svc : PredictionService.t X) items :
  (List.length items = 0 ->
   endpoint (Some svc) (BodyItems items)
   = ErrorResponse 400 "Items must be a non-empty array")
  /\ (50 < List.length items ->
      endpoint (Some svc) (BodyItems items)
      = ErrorResponse 400 "Batch size cannot exceed 50 items")
  /\ (1 <= List.length items <= 50 ->
      exists successful,
        endpoint (Some svc) (BodyItems items)
        = BatchResponse (item_results svc items) (List.length items) successful
        /\ List.length (item_results svc items) = List.length items).
Proof.
  split; [|split].
  - intros H. unfold api_batch_predict. now rewrite H.
  - intros H. unfold api_batch_predict.
    destruct (Nat.eqb_spec (List.length items) 0) as [E|_]; [lia|].
    destruct (Nat.ltb_spec 50 (List.length items)) as [_|E]; [reflexivity|lia].
  - intros H. eexists. split; [apply accepted_batch, H|].
    apply process_items_length.
Qed.

End Api.

Lemma batch_results_aligned_witness :
  1 <= List.length mixed_batch <= 50
  /\ exists results,
       api_batch_predict (fun _ => false) (fun _ => true) (fun x => x)
         (Some demo_service) (BodyItems mixed_batch)
       = BatchResponse results (List.length mixed_batch)
           (List.length (filter success results))
       /\ List.length results = List.length mixed_batch.
Proof.
  split; [simpl; lia|].
  destruct (batch_results_aligned unit (fun _ => false) (fun _ => true)
              (fun x => x) demo_service mixed_batch)
    as [results (He & Hlen & _)]; [simpl; lia|].
  exists results. split; assumption.
Defined.

(** The third scenario: the first item succeeds, the second fails at index
    1, and the item behind it is still processed. *)
Example mixed_batch_results :
  exists r0 r1 r2,
    api_batch_predict (fun _ => false) (fun _ => true) (fun x => x)
      (Some demo_service) (BodyItems mixed_batch)
    = BatchResponse [r0; r1; r2] 3 2
    /\ (success r0, index r0) = (true, 0)
    /\ (success r1, index r1, error r1)
       = (false, 1, Some "Type must be one of: email, url"%string)
    /\ (success r2, index r2) = (true, 2).
Proof.
  eexists. eexists. eexists. split; [vm_compute; reflexivity|].
  repeat split.
Qed.

Lemma batch_size_limit_witness :
  50 < List.length (repeat_items 51)
  /\ api_batch_predict (fun _ => false) (fun _ => true) (fun x => x)
       (Some demo_service) (BodyItems (repeat_items 51))
     = ErrorResponse 400 "Batch size cannot exceed 50 items".
Proof.
  split; [vm_compute; lia|].
  apply (batch_size_limit unit (fun _ => false) (fun _ => true) (fun x => x)
           demo_service (repeat_items 51)).
  vm_compute; lia.
Defined.

End RoutesFacts.

(** ** Shapes of strings *)

Module TextShapeFacts.

Import TextShape.

Lemma trimmed_strip s : trimmed (strip s).
Proof.
  unfold trimmed, strip, rstrip, lstrip. rewrite rev_involutive. split.
  - destruct (drop_while is_space s) as [|c a] eqn:Ea; [exact I|].
    pose proof (drop_while_head_false _ _ _ _ Ea) as Hc.
    destruct (rstrip_keeps_head is_space c a Hc) as [l E].
    unfold rstrip in E. now rewrite E.
  - destruct (drop_while is_space (rev (drop_while is_space s))) as [|c a] eqn:E;
      [exact I|]. apply (drop_while_head_false _ _ _ _ E).
Qed.

Lemma strip_trimmed s : trimmed s -> strip s = s.
Proof.
  intros [Hh Hl]. unfold strip, rstrip, lstrip.
  assert (E1 : drop_while is_space s = s).
  { destruct s as [|c s]; [reflexivity|]. now apply drop_while_head. }
  rewrite E1.
  assert (E2 : drop_while is_space (rev s) = rev s).
  { destruct (rev s) as [|c r]; [reflexivity|]. now apply drop_while_head. }
  rewrite E2. apply rev_involutive.
Qed.

Lemma trimmed_lower s : trimmed s -> trimmed (lower s).
Proof.
  intros [Hh Hl]. unfold trimmed, lower. rewrite <- map_rev. split.
  - destruct s as [|c s]; [exact I|]. simpl. now rewrite lower_char_space.
  - destruct (rev s) as [|c r]; [exact I|]. simpl. now rewrite lower_char_space.
Qed.

Lemma trimmed_app a s :
  trimmed a -> a <> [] -> trimmed s -> trimmed (a ++ s).
Proof.
  intros [Hah Hal] Ha [Hsh Hsl]. unfold trimmed. rewrite rev_app_distr. split.
  - destruct a as [|c a]; [congruence|exact Hah].
  - destruct (rev s) as [|c r]; simpl; [|exact Hsl].
    destruct (rev a) as [|d r] eqn:E; [|exact Hal].
    apply (f_equal (@rev ascii)) in E. rewrite rev_involutive in E.
    simpl in E. congruence.
Qed.

Lemma lower_idem s : lower (lower s) = lower s.
Proof.
  unfold lower. rewrite map_map. apply map_ext. apply lower_char_idem.
Qed.

Lemma startswith_lower p s :
  startswith p s = true -> startswith (lower p) (lower s) = true.
Proof.
  revert s. induction p as [|x p IH]; intros [|y s]; simpl; try reflexivity;
    try discriminate.
  rewrite !andb_true_iff, !ascii_eqb_eq. intros [-> H]. auto.
Qed.

(** The words of [str.split] are not empty and hold no whitespace. *)
Lemma split_from_words s :
  forall cur,
    Forall (fun c => is_space c = false) cur ->
    Forall is_split_word (split_from cur s).
Proof.
  induction s as [|c s IH]; intros cur Hcur; simpl.
  - destruct cur as [|d cur]; [constructor|].
    constructor; [|constructor]. split.
    + intros E. apply (f_equal (@rev ascii)) in E.
      rewrite rev_involutive in E. discriminate.
    + now apply Forall_rev.
  - destruct (is_space c) eqn:Hc.
    + destruct cur as [|d cur]; [apply IH; constructor|].
      constructor; [|apply IH; constructor]. split.
      * intros E. apply (f_equal (@rev ascii)) in E.
        rewrite rev_involutive in E. discriminate.
      * now apply Forall_rev.
    + apply IH. now constructor.
Qed.

Lemma split_words s : Forall is_split_word (split s).
Proof. apply split_from_words. constructor. Qed.

Lemma strip_split_word w : is_split_word w -> strip w = w.
Proof.
  intros [Hne Hw]. apply strip_trimmed. split.
  - destruct w as [|c w]; [exact I|]. now inversion Hw.
  - apply Forall_rev in Hw. destruct (rev w) as [|c r]; [exact I|].
    now inversion Hw.
Qed.

Lemma split_from_app_word w :
  forall cur s,
    Forall (fun c => is_space c = false) w ->
    split_from cur (w ++ s) = split_from (rev w ++ cur) s.
Proof.
  induction w as [|c w IH]; intros cur s Hw; [reflexivity|].
  inversion Hw as [|? ? Hc Hw']; subst. simpl. rewrite Hc, (IH _ _ Hw').
  now rewrite <- app_assoc.
Qed.

(** Splitting what was joined with single spaces gives the words back. *)
Lemma split_join words :
  Forall is_split_word words -> split (join (str " ") words) = words.
Proof.
  unfold split. induction 1 as [|w rest [Hne Hw] Hrest IH]; [reflexivity|].
  assert (Hrev : rev w <> []).
  { intros E. apply (f_equal (@rev ascii)) in E.
    rewrite rev_involutive in E. auto. }
  destruct rest as [|w2 rest].
  - simpl. rewrite <- (app_nil_r w) at 1.
    rewrite (split_from_app_word w [] [] Hw), app_nil_r. simpl.
    destruct (rev w) as [|d r] eqn:E; [congruence|].
    rewrite <- E, rev_involutive. reflexivity.
  - change (join (str " ") (w :: w2 :: rest))
      with (w ++ " "%char :: join (str " ") (w2 :: rest)).
    set (J := join (str " ") (w2 :: rest)) in *.
    rewrite (split_from_app_word w [] _ Hw), app_nil_r. simpl.
    destruct (rev w) as [|d r] eqn:E; [congruence|].
    rewrite <- E, rev_involutive, IH. reflexivity.
Qed.

End TextShapeFacts.

(** ** More of the text preprocessor *)

Module TextPreprocessorMoreFacts.

Import TextPreprocessor TextPreprocessorSpec TextShape TextShapeFacts.

Lemma own_lowercase_not_upper c : lower_char c = c -> is_ascii_upper c = false.
Proof.
  destruct c as [[] [] [] [] [] [] [] []]; vm_compute; intros H;
    (reflexivity || discriminate H).
Qed.

(** A normalized email text holds none of the 32 characters of
    [string.punctuation], none of the digits [0] to [9] and no capital
    ASCII letter; its only whitespace is the space character, and it
    neither begins nor ends with whitespace.  (Other marks and numerals,
    such as the inverted exclamation mark or the superscript two, are
    kept.) *)
Theorem normalized_email_alphabet t :
  Forall (fun c => is_punctuation c = false /\ is_digit c = false
                   /\ is_ascii_upper c = false
                   /\ (is_space c = true -> c = " "%char))
         (preprocess_email t)
  /\ trimmed (preprocess_email t).
Proof.
  split.
  - eapply Forall_impl; [|apply TextPreprocessorFacts.preprocess_email_clean].
    intros c (Hp & Hd & Hl & Hs). auto using own_lowercase_not_upper.
  - rewrite <- TextPreprocessorFacts.preprocess_email_stripped.
    apply trimmed_strip.
Qed.

(** The inverted exclamation mark and the superscript two are neither in
    [string.punctuation] nor matched by [\d]: they stay. *)
Example other_marks_are_kept :
  preprocess_email (ascii_of_N 161 :: str "hola x" ++ [ascii_of_N 178])
  = ascii_of_N 161 :: str "hola x" ++ [ascii_of_N 178].
Proof. vm_compute. reflexivity. Qed.

(** On a text of code points below 256, where [str.lower] keeps the
    length of the text, normalizing never makes an email text longer:
    every substitution replaces a non-empty match by at most one
    character. *)
Theorem normalized_email_never_longer t :
  List.length (preprocess_email t) <= List.length t.
Proof.
  etransitivity;
    [apply TextPreprocessorFacts.preprocess_email_after_hyperlinks|].
  apply TextPreprocessorFacts.sub_empty_length.
Qed.

Lemma preprocess_url_shape url :
  url <> [] ->
  exists q,
    preprocess_url url = lower q /\ trimmed q
    /\ (startswith (str "http://") q || startswith (str "https://") q) = true.
Proof.
  intros Hne. unfold preprocess_url. destruct url as [|c url]; [congruence|].
  set (s := strip (c :: url)).
  destruct (startswith (str "http://") s || startswith (str "https://") s)
    eqn:E; simpl negb; cbv iota.
  - exists s. split; [reflexivity|]. split; [apply trimmed_strip|exact E].
  - exists (str "http://" ++ s). split; [reflexivity|]. split.
    + apply trimmed_app; [split; reflexivity|discriminate|apply trimmed_strip].
    + reflexivity.
Qed.

Lemma preprocess_url_fixed r :
  trimmed r ->
  (startswith (str "http://") r || startswith (str "https://") r) = true ->
  lower r = r ->
  preprocess_url r = r.
Proof.
  intros Ht Hs Hl. unfold preprocess_url. destruct r as [|d r'] eqn:E;
    [reflexivity|]. rewrite <- E in *.
  now rewrite (strip_trimmed r Ht), Hs.
Qed.

(** [preprocess_url] gives every non-empty input a lowercase text that
    starts with [http://] or [https://], and applying it again changes
    nothing. *)
Theorem preprocess_url_idempotent url :
  (url <> [] ->
   (startswith (str "http://") (preprocess_url url)
    || startswith (str "https://") (preprocess_url url)) = true)
  /\ lower (preprocess_url url) = preprocess_url url
  /\ preprocess_url (preprocess_url url) = preprocess_url url.
Proof.
  destruct url as [|c url]; [repeat split; intros H; congruence|].
  destruct (preprocess_url_shape (c :: url)) as (q & Er & Hq & Hs);
    [discriminate|].
  assert (Hstart : (startswith (str "http://") (lower q)
                    || startswith (str "https://") (lower q)) = true).
  { apply orb_true_iff in Hs. apply orb_true_iff.
    destruct Hs as [H|H]; [left|right];
      apply startswith_lower in H; exact H. }
  rewrite Er. split; [intros _; exact Hstart|].
  split; [apply lower_idem|].
  apply preprocess_url_fixed;
    [apply trimmed_lower, Hq|exact Hstart|apply lower_idem].
Qed.

Lemma filter_idem {A} (f : A -> bool) l : filter f (filter f l) = filter f l.
Proof.
  induction l as [|x l IH]; simpl; [reflexivity|].
  destruct (f x) eqn:E; simpl; [rewrite E, IH|]; auto.
Qed.

Lemma Forall_filter {A} (P : A -> Prop) f l :
  Forall P l -> Forall P (filter f l).
Proof.
  intros H. apply Forall_forall. intros x Hx. apply filter_In in Hx as [Hx _].
  rewrite Forall_forall in H. auto.
Qed.

Lemma preprocess_url_idempotent_witness :
  str "  Example.COM/Path " <> []
  /\ preprocess_url (str "  Example.COM/Path ") = str "http://example.com/path"
  /\ (startswith (str "http://") (preprocess_url (str "  Example.COM/Path "))
      || startswith (str "https://")
           (preprocess_url (str "  Example.COM/Path "))) = true.
Proof.
  split; [discriminate|]. split; [reflexivity|].
  apply (proj1 (preprocess_url_idempotent (str "  Example.COM/Path "))).
  discriminate.
Defined.

(** [extract_words] returns, in order, exactly the words of [text.split()]
    that have at least [min_length] characters; each is free of
    whitespace. *)
Theorem extract_words_are_long_words t min_length :
  extract_words t min_length
  = filter (fun w => (min_length <=? len w)%Z) (split t)
  /\ Forall (fun w => is_split_word w /\ (min_length <= len w)%Z)
            (extract_words t min_length).
Proof.
  assert (E : extract_words t min_length
              = filter (fun w => (min_length <=? len w)%Z) (split t)).
  { unfold extract_words. destruct t as [|c t]; [reflexivity|].
    pose proof (split_words (c :: t)) as Hw. revert Hw.
    induction (split (c :: t)) as [|w ws IH]; intros Hw; [reflexivity|].
    inversion Hw as [|? ? H1 H2]; subst. simpl.
    rewrite (strip_split_word w H1).
    destruct (min_length <=? len w)%Z; simpl;
      [rewrite (strip_split_word w H1)|]; now rewrite IH. }
  split; [exact E|]. rewrite E. apply Forall_forall. intros w Hw.
  apply filter_In in Hw as [Hw Hlen].
  pose proof (split_words t) as Hall. rewrite Forall_forall in Hall.
  split; [auto|]. now apply Z.leb_le.
Qed.

Lemma remove_stop_words_join t stop_words :
  remove_stop_words t stop_words
  = join (str " ")
      (filter (fun w =>
                 negb (text_in (lower w)
                         match stop_words with
                         | None => default_stop_words
                         | Some l => l
                         end))
         (split t)).
Proof. destruct t; reflexivity. Qed.

(** The words of the text that [remove_stop_words] returns are the words
    of the input whose lowercase is no stop word, in order; so no stop
    word is left, and removing them again changes nothing. *)
Theorem remove_stop_words_keeps_other_words t stop_words :
  let stops :=
    match stop_words with None => default_stop_words | Some l => l end in
  split (remove_stop_words t stop_words)
  = filter (fun w => negb (text_in (lower w) stops)) (split t)
  /\ remove_stop_words (remove_stop_words t stop_words) stop_words
     = remove_stop_words t stop_words.
Proof.
  intros stops.
  assert (E : split (remove_stop_words t stop_words)
              = filter (fun w => negb (text_in (lower w) stops)) (split t)).
  { rewrite remove_stop_words_join. fold stops.
    apply split_join, Forall_filter, split_words. }
  split; [exact E|].
  rewrite (remove_stop_words_join (remove_stop_words t stop_words)).
  fold stops. rewrite E, filter_idem. symmetry.
  apply remove_stop_words_join.
Qed.

(** *** [clean_special_characters] *)

Lemma strip_infix s : exists pre post, s = pre ++ strip s ++ post.
Proof.
  unfold strip, rstrip, lstrip.
  destruct (drop_while_suffix is_space s) as [pre E1].
  destruct (drop_while_suffix is_space (rev (drop_while is_space s)))
    as [p2 E2].
  exists pre, (rev p2). rewrite <- rev_app_distr, <- E2, rev_involutive.
  exact E1.
Qed.

Lemma single_spaced_infix pre m post :
  single_spaced (pre ++ m ++ post) -> single_spaced m.
Proof.
  intros H p a b q -> Ha. apply (H (pre ++ p) a b (q ++ post)); [|exact Ha].
  now rewrite <- !app_assoc.
Qed.

Lemma single_spaced_cons c o :
  single_spaced o ->
  (is_space c = true ->
   match o with d :: _ => is_space d = false | [] => True end) ->
  single_spaced (c :: o).
Proof.
  intros Ho Hc pre a b post E Ha. destruct pre as [|x pre]; simpl in E.
  - injection E as <- ->. exact (Hc Ha).
  - injection E as <- ->. exact (Ho pre a b post eq_refl Ha).
Qed.

Lemma single_spaced_tail c o : single_spaced (c :: o) -> single_spaced o.
Proof. intros H pre a b post ->. apply (H (c :: pre) a b post). reflexivity. Qed.

(** Collapsing leaves no two whitespace characters side by side. *)
Lemma run_pattern_cons p prev c s :
  run_pattern p prev (c :: s)
  = if p c then Some (S (span p s)) else None.
Proof. unfold run_pattern. simpl. now destruct (p c). Qed.

Lemma collapse_single_spaced s :
  forall prev skip,
    single_spaced (re_sub_from (run_pattern is_space) (str " ") prev skip s)
    /\ (skip = span is_space s ->
        match re_sub_from (run_pattern is_space) (str " ") prev skip s with
        | d :: _ => is_space d = false
        | [] => True
        end).
Proof.
  induction s as [|c s IH]; intros prev skip.
  - split; [|intros _; exact I]. intros pre a b post E. now destruct pre.
  - cbn [re_sub_from]. destruct skip as [|k].
    + rewrite run_pattern_cons. destruct (is_space c) eqn:Hc.
      * destruct (IH (Some c) (span is_space s)) as [Ha Hb].
        split; [|simpl; rewrite Hc; discriminate].
        apply single_spaced_cons; [exact Ha|]. intros _. now apply Hb.
      * destruct (IH (Some c) 0) as [Ha _]. split; [|intros _; exact Hc].
        apply single_spaced_cons; [exact Ha|]. congruence.
    + destruct (IH (Some c) k) as [Ha Hb]. split; [exact Ha|].
      simpl span. destruct (is_space c); [|discriminate].
      intros [= ->]. now apply Hb.
Qed.

Lemma collapse_fixed s :
  Forall (fun c => is_space c = true -> c = " "%char) s ->
  single_spaced s ->
  forall prev, re_sub_from (run_pattern is_space) (str " ") prev 0 s = s.
Proof.
  induction s as [|c s IH]; intros Hs Hd prev; [reflexivity|].
  inversion Hs as [|? ? Hc Hs']; subst.
  pose proof (single_spaced_tail _ _ Hd) as Hd'.
  cbn [re_sub_from]. rewrite run_pattern_cons.
  destruct (is_space c) eqn:Ec.
  - assert (E : span is_space s = 0).
    { destruct s as [|d s]; [reflexivity|]. simpl.
      now rewrite (Hd [] c d s eq_refl Ec). }
    rewrite E, (Hc eq_refl). simpl. now rewrite IH.
  - now rewrite IH.
Qed.

Lemma re_sub_from_class p repl s :
  forall prev skip,
    Forall (fun c => p c = false \/ In c repl)
           (re_sub_from (class_pattern p) repl prev skip s).
Proof.
  induction s as [|c s IH]; intros prev skip; cbn [re_sub_from];
    [constructor|].
  destruct skip as [|k]; [|apply IH].
  unfold class_pattern at 1. destruct (p c) eqn:Hc.
  - apply Forall_app. split; [|apply IH].
    apply Forall_forall. intros x Hx. now right.
  - constructor; [now left|apply IH].
Qed.

(** With no pattern to preserve, [clean_special_characters] returns a text
    of word characters and single spaces that neither begins nor ends with
    a space, and cleaning it again changes nothing. *)
Theorem clean_special_characters_idempotent t :
  Forall (fun c => is_word c = true \/ c = " "%char)
         (clean_special_characters t)
  /\ single_spaced (clean_special_characters t)
  /\ trimmed (clean_special_characters t)
  /\ clean_special_characters (clean_special_characters t)
     = clean_special_characters t.
Proof.
  assert (Hshape :
    Forall (fun c => (is_word c = true \/ c = " "%char)
                     /\ (is_space c = true -> c = " "%char))
           (clean_special_characters t)
    /\ single_spaced (clean_special_characters t)
    /\ trimmed (clean_special_characters t)).
  { unfold clean_special_characters. destruct t as [|c0 t0].
    { split; [constructor|]. split; [|split; exact I].
      intros pre a b post E. now destruct pre. }
    set (t1 := re_sub _ _ (c0 :: t0)).
    split; [|split; [|apply trimmed_strip]].
    - apply strip_Forall.
      pose proof (re_sub_from_class
                    (fun c => negb (is_word c || is_space c)) (str " ")
                    (c0 :: t0) None 0) as H1. fold (re_sub
                    (class_pattern (fun c => negb (is_word c || is_space c)))
                    (str " ") (c0 :: t0)) in H1. fold t1 in H1.
      pose proof (re_sub_from_Forall (run_pattern is_space) (str " ")
                    (fun c => (is_word c || is_space c) = true) t1) as H2.
      pose proof (re_sub_from_run is_space (str " ") t1 None 0) as H3.
      assert (H1' : Forall (fun c => (is_word c || is_space c) = true) t1).
      { eapply Forall_impl; [|exact H1]. intros c [H|[<-|[]]]; [|reflexivity].
        now apply negb_false_iff in H. }
      assert (Hsp : Forall (fun c => (is_word c || is_space c) = true)
                      (str " ")) by (repeat constructor).
      specialize (H2 H1' Hsp None 0).
      unfold re_sub. rewrite Forall_forall in *. intros c Hc.
      specialize (H2 c Hc). specialize (H3 c Hc).
      split.
      + destruct H3 as [H3|[<-|[]]]; [|now right].
        rewrite H3, orb_false_r in H2. now left.
      + intros Hs. destruct H3 as [H3|[<-|[]]]; [congruence|reflexivity].
    - destruct (strip_infix (re_sub (run_pattern is_space) (str " ") t1))
        as (pre & post & E).
      apply (single_spaced_infix pre _ post). rewrite <- E.
      apply (collapse_single_spaced t1 None 0). }
  destruct Hshape as (Hall & Hss & Htr).
  split; [eapply Forall_impl; [|exact Hall]; intros c [H _]; exact H|].
  split; [exact Hss|]. split; [exact Htr|].
  set (y := clean_special_characters t) in *.
  unfold clean_special_characters at 1.
  destruct y as [|d r] eqn:Ey; [reflexivity|]. rewrite <- Ey in *. clear Ey.
  assert (E1 : re_sub (class_pattern (fun c => negb (is_word c || is_space c)))
                 (str " ") y = y).
  { apply re_sub_from_unmatched.
    apply (re_search_from_none _
             (Forall (fun c => (is_word c = true \/ c = " "%char)
                               /\ (is_space c = true -> c = " "%char)))).
    - intros c s H. now inversion H.
    - intros prev s H. destruct s as [|c s]; [reflexivity|]. simpl.
      inversion H as [|? ? [[Hw|Hw] _] _]; subst; [|reflexivity].
      now rewrite Hw.
    - exact Hall. }
  rewrite E1. unfold re_sub.
  rewrite (collapse_fixed y); [apply strip_trimmed, Htr| |exact Hss].
  eapply Forall_impl; [|exact Hall]. intros c [_ H]. exact H.
Qed.

End TextPreprocessorMoreFacts.

(** ** More of the URL feature extractor *)

Module URLClassifierMoreFacts.

Import URLClassifier.

Lemma in_repeat_zero (z : Z) n : In z (repeat 0%Z n) -> z = 0%Z.
Proof. intros H. now apply repeat_spec in H. Qed.

(** Every entry of an extracted feature vector is [-1], [0] or [1]; the
    IP, shortener, at-sign, double-slash and hyphen features are never
    [0]. *)
Theorem feature_values ck self url v :
  extract_features ck self url = Ok v ->
  Forall (fun z => z = (-1)%Z \/ z = 0%Z \/ z = 1%Z) v
  /\ forall i, In i [0; 2; 3; 4; 5] ->
       nth_error v i = Some 1%Z \/ nth_error v i = Some (-1)%Z.
Proof.
  intros Hv. destruct (UrlParse.netloc ck url) as [nl|e] eqn:Hnl;
    [|rewrite (URLClassifierFacts.extract_features_raise _ _ _ _ Hnl) in Hv;
      discriminate].
  rewrite (URLClassifierFacts.extract_features_ok _ _ _ _ Hnl) in Hv.
  injection Hv as <-. split.
  - unfold _has_ip_address, _get_url_length_category,
      _has_shortening_service, _has_double_slash_redirect,
      _has_prefix_suffix, _count_subdomains.
    repeat (apply Forall_cons;
            [repeat match goal with
                    | |- context [if ?b then _ else _] => destruct b
                    | |- context [match ?l with [] => _ | _ :: _ => _ end] =>
                        destruct l
                    end; auto|]).
    apply Forall_forall. intros z Hz. apply in_repeat_zero in Hz. auto.
  - intros i Hi. unfold heuristics, _has_ip_address, _has_shortening_service,
      _has_double_slash_redirect, _has_prefix_suffix.
    simpl in Hi. destruct Hi as [<-|[<-|[<-|[<-|[<-|[]]]]]]; simpl;
      match goal with |- context [if ?b then _ else _] => destruct b end;
      auto.
Qed.

Lemma feature_values_witness :
  extract_features (fun _ => true) init (str "http://a-b.example.com/x")
  = Ok ([-1; -1; -1; -1; -1; 1; 0] ++ repeat 0 23)%Z
  /\ Forall (fun z => z = (-1)%Z \/ z = 0%Z \/ z = 1%Z)
            ([-1; -1; -1; -1; -1; 1; 0] ++ repeat 0 23)%Z.
Proof.
  split; [vm_compute; reflexivity|].
  apply (feature_values (fun _ => true) init (str "http://a-b.example.com/x")).
  vm_compute; reflexivity.
Defined.

Lemma lower_app a b : lower (a ++ b) = lower a ++ lower b.
Proof. apply map_app. Qed.

Lemma startswith_self_app p s : startswith p (p ++ s) = true.
Proof.
  induction p as [|x p IH]; simpl; [reflexivity|].
  rewrite IH, andb_true_r. now apply ascii_eqb_eq.
Qed.

Lemma contains_infix p a b : contains p (a ++ p ++ b) = true.
Proof. apply contains_app_r, contains_startswith, startswith_self_app. Qed.

(** The shortener test looks at the whole URL text and ignores case: a
    URL that holds the name of one of the seven services anywhere, in any
    mix of capitals, gets feature 3 equal to [1]. *)
Theorem shortening_service_anywhere pre mid post service :
  In service shortening_services ->
  lower mid = service ->
  _has_shortening_service (pre ++ mid ++ post) = 1%Z.
Proof.
  intros Hin Hmid. unfold _has_shortening_service.
  assert (H : existsb (fun service0 =>
                contains service0 (lower (pre ++ mid ++ post)))
                shortening_services = true).
  { apply existsb_exists. exists service. split; [exact Hin|].
    rewrite !lower_app, Hmid. apply contains_infix. }
  now rewrite H.
Qed.

Lemma shortening_service_anywhere_witness :
  In (str "t.co") shortening_services
  /\ lower (str "T.Co") = str "t.co"
  /\ _has_shortening_service
       (str "https://www.microsof" ++ str "T.Co" ++ str "m/en-us") = 1%Z.
Proof.
  split; [vm_compute; auto 10|]. split; [reflexivity|].
  apply (shortening_service_anywhere (str "https://www.microsof")
           (str "T.Co") (str "m/en-us") (str "t.co"));
    [vm_compute; auto 10|reflexivity].
Defined.

(** A longer URL never falls into a lower length category. *)
Theorem url_length_category_monotone (l1 l2 : Z) :
  (l1 <= l2)%Z ->
  (_get_url_length_category l1 <= _get_url_length_category l2)%Z.
Proof.
  intros H. unfold _get_url_length_category.
  destruct (Z.ltb_spec l1 54), (Z.ltb_spec l2 54),
    (Z.leb_spec l1 75), (Z.leb_spec l2 75); lia.
Qed.

Lemma url_length_category_monotone_witness :
  (53 <= 76)%Z
  /\ (_get_url_length_category 53 <= _get_url_length_category 76)%Z.
Proof.
  split; [lia|]. apply (url_length_category_monotone 53 76). lia.
Defined.

End URLClassifierMoreFacts.

(** ** More of the request validator *)

Module InputValidatorMoreFacts.

Import InputValidator InputValidatorSpec.

Lemma text_eqb_eq a b : text_eqb a b = true <-> a = b.
Proof.
  revert b. induction a as [|x a IH]; intros [|y b]; simpl;
    try (split; [discriminate|congruence]); [tauto|].
  rewrite andb_true_iff, ascii_eqb_eq, IH. split.
  - intros [-> ->]. reflexivity.
  - intros [= -> ->]. auto.
Qed.

Lemma valid_type_cases ty :
  existsb (text_eqb ty) valid_types = true ->
  ty = str "email" \/ ty = str "url".
Proof.
  unfold valid_types. simpl. rewrite orb_false_r, orb_true_iff.
  rewrite !text_eqb_eq. tauto.
Qed.

(** A literal pattern under [IGNORECASE] is found exactly when the literal
    occurs in the lowercased text. *)
Lemma literal_search lit s :
  forall prev,
    re_search_from (literal_pattern_ci lit) prev s = contains lit (lower s).
Proof.
  induction s as [|c s IH]; intros prev; simpl.
  - unfold literal_pattern_ci. simpl.
    destruct (startswith lit []); reflexivity.
  - unfold literal_pattern_ci at 1. simpl lower. fold (lower s).
    destruct (startswith lit (lower_char c :: lower s)) eqn:E;
      [reflexivity|]. simpl. apply IH.
Qed.

Section Validation.

Variable url_pattern_match : text -> bool.
Variable check_bracketed : text -> bool.

Local Abbreviation validate :=
  (validate_prediction_input url_pattern_match check_bracketed).

(** Whatever the validator accepts is an object whose type is ['email'] or
    ['url'] and whose text is a string of 3 to 10000 characters once
    trimmed; an accepted email has at least two words and holds neither
    [javascript:] nor [data:text/html] in any mix of capitals; an accepted
    URL has at most 2048 characters. *)
Theorem accepted_request_is_well_formed item :
  is_valid (validate item) = true ->
  exists fields txt ty,
    item = ItemObject fields
    /\ fields !! "text"%string = Some (JStr txt)
    /\ fields !! "type"%string = Some (JStr ty)
    /\ (ty = str "email" \/ ty = str "url")
    /\ (3 <= len (strip txt) <= 10000)%Z
    /\ (ty = str "email" ->
        2 <= List.length (split (strip txt))
        /\ contains (str "javascript:") (lower (strip txt)) = false
        /\ contains (str "data:text/html") (lower (strip txt)) = false)
    /\ (ty = str "url" -> (len (strip txt) <= 2048)%Z).
Proof.
  unfold validate_prediction_input.
  destruct item as [fields|s|elems|truthy].
  - destruct (bool_decide (fields = ∅)); [discriminate|].
    destruct (fields !! "text"%string) as [txt|] eqn:Ht; [|discriminate].
    destruct (fields !! "type"%string) as [[ty|]|] eqn:Hy; try discriminate.
    destruct (existsb (text_eqb ty) valid_types) eqn:Hty; [|discriminate].
    apply valid_type_cases in Hty.
    destruct (is_valid (_validate_text_content _ _ txt ty)) eqn:Hv;
      [intros _|now rewrite Hv].
    unfold _validate_text_content in Hv.
    destruct txt as [[|c txt]|]; try discriminate.
    set (t := strip (c :: txt)) in *.
    destruct t as [|d t'] eqn:Et; [discriminate|]. rewrite <- Et in *.
    destruct (Z.ltb_spec 10000 (len t)) as [|Hhi]; [discriminate|].
    destruct (Z.ltb_spec (len t) 3) as [|Hlo]; [discriminate|].
    exists fields, (c :: txt), ty. fold t.
    split; [reflexivity|]. split; [exact Ht|]. split; [exact Hy|].
    split; [exact Hty|]. split; [lia|].
    destruct Hty as [-> | ->].
    + change (text_eqb (str "email") (str "email")) with true in Hv.
      cbv iota in Hv. unfold _validate_email_content in Hv.
      destruct (Nat.ltb_spec (List.length (split t)) 2) as [|Hw];
        [discriminate|].
      destruct (existsb _ suspicious_patterns) eqn:Hs; [discriminate|].
      split; [|intros [=]]. intros _. split; [exact Hw|].
      unfold suspicious_patterns in Hs. cbn [existsb] in Hs.
      rewrite orb_false_r in Hs.
      apply orb_false_iff in Hs as [_ Hs]. apply orb_false_iff in Hs as [H1 H2].
      unfold re_search in H1, H2. rewrite literal_search in H1, H2. auto.
    + change (text_eqb (str "url") (str "email")) with false in Hv.
      change (text_eqb (str "url") (str "url")) with true in Hv.
      cbv iota in Hv. unfold _validate_url_content in Hv.
      split; [intros [=]|]. intros _.
      destruct (negb _); [discriminate|].
      destruct (Z.ltb_spec 2048 (len t)); [discriminate|lia].
  - destruct s; [discriminate|]. simpl.
    destruct (negb _); [discriminate|]. destruct (negb _); discriminate.
  - destruct elems; [discriminate|]. simpl.
    destruct (negb _); [discriminate|]. destruct (negb _); discriminate.
  - destruct truthy; discriminate.
Qed.

(** The field checks come in a fixed order: on a non-empty object a
    missing text is reported first, then a missing type, then a type that
    is neither ['email'] nor ['url'], whatever the text is. *)
Theorem field_checks_in_order (fields : gmap string jval) :
  fields <> ∅ ->
  (fields !! "text"%string = None ->
   validate (ItemObject fields) = invalid "Text field is required")
  /\ (forall txt,
        fields !! "text"%string = Some txt ->
        fields !! "type"%string = None ->
        validate (ItemObject fields) = invalid "Type field is required")
  /\ (forall txt ty,
        fields !! "text"%string = Some txt ->
        fields !! "type"%string = Some ty ->
        jval_is (str "email") ty = false ->
        jval_is (str "url") ty = false ->
        validate (ItemObject fields)
        = invalid "Type must be one of: email, url").
Proof.
  intros Hne. unfold validate_prediction_input.
  assert (E : bool_decide (fields = ∅) = false)
    by now apply bool_decide_eq_false.
  rewrite E. split; [|split].
  - now intros ->.
  - now intros txt -> ->.
  - intros txt ty -> -> He Hu. destruct ty as [ty|]; [|reflexivity].
    simpl in He, Hu. unfold valid_types. simpl. now rewrite He, Hu.
Qed.

(** An email text that passes the length and word checks and holds
    [javascript:] or [data:text/html], in any mix of capitals, is refused
    as potentially malicious. *)
Theorem script_scheme_rejected fields txt :
  fields !! "type"%string = Some (JStr (str "email")) ->
  fields !! "text"%string = Some (JStr txt) ->
  (3 <= len (strip txt) <= 10000)%Z ->
  2 <= List.length (split (strip txt)) ->
  (contains (str "javascript:") (lower (strip txt))
   || contains (str "data:text/html") (lower (strip txt))) = true ->
  validate (ItemObject fields)
  = invalid "Email content contains potentially malicious patterns".
Proof.
  intros Hy Ht [Hlo Hhi] Hw Hs.
  rewrite (InputValidatorFacts.validate_object _ _ fields (JStr txt)
             (str "email") Ht Hy eq_refl).
  unfold _validate_text_content. cbv zeta.
  destruct txt as [|c txt]; [now vm_compute in Hlo|].
  destruct (strip (c :: txt)) as [|d t] eqn:Es; [now vm_compute in Hlo|].
  rewrite <- Es in *.
  destruct (Z.ltb_spec 10000 (len (strip (c :: txt)))); [lia|].
  destruct (Z.ltb_spec (len (strip (c :: txt))) 3); [lia|].
  change (text_eqb (str "email") (str "email")) with true. cbv iota.
  unfold _validate_email_content.
  destruct (Nat.ltb_spec (List.length (split (strip (c :: txt)))) 2); [lia|].
  assert (E : existsb (fun pattern => re_search pattern (strip (c :: txt)))
                suspicious_patterns = true).
  { unfold suspicious_patterns. cbn [existsb]. unfold re_search.
    rewrite !literal_search, orb_false_r, Hs. apply orb_true_r. }
  now rewrite E.
Qed.

End Validation.

Lemma script_scheme_rejected_witness :
  validate_prediction_input (fun _ => false) (fun _ => true)
    (ItemObject javascript_link)
  = invalid "Email content contains potentially malicious patterns".
Proof.
  apply (script_scheme_rejected (fun _ => false) (fun _ => true)
           javascript_link (str "click JavaScript:alert(1) now"));
    try reflexivity.
  - vm_compute; split; discriminate.
  - vm_compute; lia.
Defined.

Lemma accepted_request_is_well_formed_witness :
  is_valid (validate_prediction_input (fun _ => false) (fun _ => true)
              (RoutesSpec.request "ok valid text here" "email")) = true
  /\ exists fields txt ty,
       RoutesSpec.request "ok valid text here" "email" = ItemObject fields
       /\ fields !! "text"%string = Some (JStr txt)
       /\ fields !! "type"%string = Some (JStr ty)
       /\ (3 <= len (strip txt) <= 10000)%Z.
Proof.
  split; [vm_compute; reflexivity|].
  destruct (accepted_request_is_well_formed (fun _ => false) (fun _ => true)
              (RoutesSpec.request "ok valid text here" "email"))
    as (fields & txt & ty & H1 & H2 & H3 & _ & H5 & _);
    [vm_compute; reflexivity|].
  exists fields, txt, ty. auto.
Defined.

Lemma field_checks_in_order_witness :
  (<["type"%string := JStr (str "email")]> ∅ : gmap string jval) <> ∅
  /\ validate_prediction_input (fun _ => false) (fun _ => true)
       (ItemObject (<["type"%string := JStr (str "email")]> ∅))
     = invalid "Text field is required".
Proof.
  assert (H : (<["type"%string := JStr (str "email")]> ∅ : gmap string jval)
              <> ∅).
  { intros E. apply (f_equal (fun m => m !! "type"%string)) in E.
    vm_compute in E. discriminate E. }
  split; [exact H|].
  apply (field_checks_in_order (fun _ => false) (fun _ => true) _ H).
  reflexivity.
Defined.

End InputValidatorMoreFacts.

(** ** More of the prediction service *)

Module PredictionServiceMoreFacts.

Import PredictionService PredictionServiceSpec.

Lemma predict_text_assembled {X} ck (self : t X) txt ty r :
  predict_text ck self txt ty = Ok r ->
  exists n conf processed,
    r = assemble (content_type r) processed n conf
    /\ (content_type r = Email <-> lower ty = str "email")
    /\ (forall p, processed = Some p -> List.length p <= 100).
Proof.
  unfold predict_text. destruct (negb (models_loaded self)); [discriminate|].
  destruct (text_eqb (lower ty) (str "email")) eqn:Ee.
  - apply InputValidatorMoreFacts.text_eqb_eq in Ee.
    unfold _predict_email.
    destruct (EmailClassifier.predict _ _) as [[n conf]|e]; [|discriminate].
    intros [= <-]. exists n, conf. eexists. split; [reflexivity|].
    split; [simpl; tauto|].
    intros p [= <-]. apply firstn_le_length.
  - destruct (text_eqb (lower ty) (str "url")) eqn:Eu; [|discriminate].
    unfold _predict_url.
    destruct (URLClassifier.extract_features _ _ _) as [v|e]; [|discriminate].
    simpl. destruct (URLClassifier.predict _ _) as [[n conf]|e];
      [|discriminate].
    intros [= <-]. exists n, conf, None. split; [reflexivity|].
    split; [|discriminate]. simpl. split; [discriminate|].
    intros E. rewrite E in Ee. discriminate.
Qed.

(** At or above the higher of two positive numbers of one exponent is at
    or above the lower. *)
Lemma spec_float_above (x : spec_float) (m6 m8 : positive) (e0 : Z) :
  (m6 <= m8)%positive ->
  SFleb (S754_finite false m8 e0) x = true ->
  SFleb (S754_finite false m6 e0) x = true.
Proof.
  intros Hm. unfold SFleb, SFcompare.
  destruct x as [s|s| |s m e]; try congruence;
    try (destruct s; congruence).
  destruct s; [congruence|].
  change (PosDef.Pos.compare_cont Eq) with Pos.compare.
  destruct (e0 ?= e)%Z; try congruence.
  destruct (Pos.compare_spec m8 m) as [E|L|G]; try congruence; intros _.
  - subst m. destruct (Pos.compare_spec m6 m8); try reflexivity. lia.
  - destruct (Pos.compare_spec m6 m); try reflexivity. lia.
Qed.

Lemma high_is_medium conf :
  PrimFloat.leb 0.8%float conf = true -> PrimFloat.leb 0.6%float conf = true.
Proof.
  rewrite !leb_spec, PredictionServiceFacts.threshold_medium,
    PredictionServiceFacts.threshold_high.
  apply spec_float_above, PredictionServiceFacts.threshold_mantissas.
Qed.

(** Every prediction that [predict_text] returns is consistent: the label
    is Phishing exactly when the raw label is 1; a risk above Low comes
    only with the label Phishing and a confidence of at least 0.6, and
    High only with at least 0.8; the content type is email exactly when
    the lowercased type argument is ['email']; and the reported processed
    text has at most 100 characters. *)
Theorem prediction_is_consistent {X} ck (self : t X) txt ty r :
  predict_text ck self txt ty = Ok r ->
  (prediction_label r = Phishing <-> raw_prediction r = 1%Z)
  /\ (risk_level r <> Low ->
      prediction_label r = Phishing
      /\ PrimFloat.leb 0.6%float (confidence r) = true)
  /\ (risk_level r = High ->
      PrimFloat.leb 0.8%float (confidence r) = true)
  /\ (content_type r = Email <-> lower ty = str "email")
  /\ (forall p, processed_text r = Some p -> List.length p <= 100).
Proof.
  intros H.
  destruct (predict_text_assembled ck self txt ty r H)
    as (n & conf & processed & -> & Hct & Hp).
  simpl in *. unfold map_prediction, _calculate_risk_level.
  destruct (Z.eqb_spec n 1) as [->|Hn]; simpl.
  - split; [tauto|]. split; [|split; [|split; [exact Hct|exact Hp]]].
    + destruct (PrimFloat.leb 0.8%float conf) eqn:E8.
      * intros _. split; [reflexivity|]. now apply high_is_medium.
      * destruct (PrimFloat.leb 0.6%float conf); [auto|congruence].
    + destruct (PrimFloat.leb 0.8%float conf); [reflexivity|].
      destruct (PrimFloat.leb 0.6%float conf); discriminate.
  - split; [split; [discriminate|congruence]|].
    split; [congruence|]. split; [discriminate|]. split; assumption.
Qed.

(** *** [predict_batch] *)

Lemma predict_text_json_strings {X} ck (self : t X) txt ty :
  predict_text_json ck self (JStr txt) (JStr ty) = predict_text ck self txt ty.
Proof. reflexivity. Qed.

Lemma predict_item_unloaded {X} ck (self : t X) item :
  models_loaded self = false ->
  exists e, predict_item ck self item = Raise e.
Proof.
  intros Hm. unfold predict_item.
  destruct item as [fields| | |]; eauto.
  destruct (fields !! "text"%string) as [txt|]; [|eauto].
  destruct (fields !! "type"%string) as [ty|]; [|eauto].
  unfold predict_text_json, predict_text. rewrite Hm. simpl.
  destruct txt, ty; eauto.
Qed.

Lemma predict_item_unloaded_message {X} ck (self : t X) fields txt ty :
  models_loaded self = false ->
  fields !! "text"%string = Some txt ->
  fields !! "type"%string = Some ty ->
  predict_item ck self (ItemObject fields)
  = Raise (RuntimeError "Models not loaded").
Proof.
  intros Hm Ht Hy. unfold predict_item. rewrite Ht, Hy.
  unfold predict_text_json, predict_text. rewrite Hm. simpl.
  destruct txt, ty; reflexivity.
Qed.

Lemma failure_text_reportable item :
  reportable item = true <-> exists txt, failure_text item = Ok txt.
Proof.
  unfold reportable, failure_text. destruct item as [fields| | |];
    try (split; [discriminate|intros [? [=]]]).
  destruct (fields !! "text"%string) as [[txt|b]|];
    split; eauto; try discriminate. intros [? [=]].
Qed.

Lemma failure_text_of_object fields txt :
  failure_text (ItemObject fields) = Ok txt ->
  txt = firstn 50 (text_or_empty fields) ++ str "...".
Proof.
  unfold failure_text, text_or_empty.
  destruct (fields !! "text"%string) as [[t|b]|]; intros [=]; now subst.
Qed.

Lemma batch_fold_raise {X} ck (self : t X) items e :
  fold_left
    (fun results item =>
       results ← results;
       entry ← batch_entry_of ck self item;
       Ok (results ++ [entry]))
    items (Raise e)
  = Raise e.
Proof. induction items as [|item items IH]; simpl; [reflexivity|exact IH]. Qed.

Lemma predict_batch_from {X} ck (self : t X) items :
  forall acc,
    fold_left
      (fun results item =>
         results ← results;
         entry ← batch_entry_of ck self item;
         Ok (results ++ [entry]))
      items (Ok acc)
    = (rest ← predict_batch ck self items; Ok (acc ++ rest)).
Proof.
  unfold predict_batch.
  induction items as [|item items IH]; intros acc; simpl.
  - now rewrite app_nil_r.
  - destruct (batch_entry_of ck self item) as [entry|e]; simpl.
    + rewrite (IH (acc ++ [entry])), (IH [entry]).
      destruct (fold_left _ items (Ok [])) as [rest|e]; simpl;
        [now rewrite <- app_assoc|reflexivity].
    + now rewrite !batch_fold_raise.
Qed.

(** The loop, read item by item. *)
Lemma predict_batch_cons {X} ck (self : t X) item items :
  predict_batch ck self (item :: items)
  = (entry ← batch_entry_of ck self item;
     rest ← predict_batch ck self items;
     Ok (entry :: rest)).
Proof.
  unfold predict_batch at 1. simpl.
  destruct (batch_entry_of ck self item) as [entry|e]; simpl.
  - apply (predict_batch_from ck self items [entry]).
  - apply batch_fold_raise.
Qed.

(** An item gets an entry exactly when its prediction returns or the
    failure handler can report on it. *)
Lemma batch_entry_of_returns {X} ck (self : t X) item :
  (exists entry, batch_entry_of ck self item = Ok entry)
  <-> (exists r, predict_item ck self item = Ok r) \/ reportable item = true.
Proof.
  unfold batch_entry_of.
  destruct (predict_item ck self item) as [r|e].
  - split; eauto.
  - rewrite failure_text_reportable.
    destruct (failure_text item) as [txt|e']; simpl; split.
    + eauto.
    + eauto.
    + intros [? [=]].
    + intros [[? [=]]|[? [=]]].
Qed.

Lemma predict_batch_returns {X} ck (self : t X) items :
  (exists results, predict_batch ck self items = Ok results)
  <-> Forall (fun item =>
                (exists r, predict_item ck self item = Ok r)
                \/ reportable item = true) items.
Proof.
  induction items as [|item items IH].
  - split; [constructor|]. intros _. now exists [].
  - rewrite predict_batch_cons. split.
    + intros [results H].
      destruct (batch_entry_of ck self item) as [entry|e] eqn:He;
        [|discriminate].
      constructor.
      * apply batch_entry_of_returns. eauto.
      * apply IH. simpl in H.
        destruct (predict_batch ck self items); [eauto|discriminate].
    + intros H. inversion H as [|? ? H1 H2]; subst.
      apply batch_entry_of_returns in H1 as [entry ->].
      apply IH in H2 as [rest ->]. simpl. eauto.
Qed.

Lemma predict_batch_length {X} ck (self : t X) items :
  forall results,
    predict_batch ck self items = Ok results ->
    List.length results = List.length items.
Proof.
  induction items as [|item items IH]; intros results.
  - intros [= <-]. reflexivity.
  - rewrite predict_batch_cons.
    destruct (batch_entry_of ck self item) as [entry|e]; [|discriminate].
    simpl. destruct (predict_batch ck self items) as [rest|e];
      [|discriminate].
    intros [= <-]. simpl. f_equal. now apply IH.
Qed.

Lemma predict_batch_nth {X} ck (self : t X) items :
  forall results i item,
    predict_batch ck self items = Ok results ->
    nth_error items i = Some item ->
    exists entry,
      nth_error results i = Some entry
      /\ batch_entry_of ck self item = Ok entry.
Proof.
  induction items as [|item0 items IH]; intros results i item.
  - destruct i; discriminate.
  - rewrite predict_batch_cons.
    destruct (batch_entry_of ck self item0) as [entry|e] eqn:He;
      [|discriminate].
    simpl. destruct (predict_batch ck self items) as [rest|e];
      [|discriminate].
    intros [= <-]. destruct i as [|i]; simpl.
    + intros [= <-]. eauto.
    + intros Hi. now apply (IH rest i item).
Qed.

(** [predict_batch] returns a list exactly when every item either
    predicts or can be reported on, that is, is an object whose text is
    absent or a string; one failing item that is not loses the whole
    batch.  When it returns, there is one entry per item, in the order of
    the items: a success carrying the prediction when the item's
    prediction returns, and otherwise a failure without a prediction that
    carries the first 50 characters of the text followed by three dots;
    an item without a text fails with the message of the [KeyError]. *)
Theorem predict_batch_entries {X} ck (self : t X) items :
  ((exists results, predict_batch ck self items = Ok results)
   <-> Forall (fun item =>
                 (exists r, predict_item ck self item = Ok r)
                 \/ reportable item = true) items)
  /\ forall results,
       predict_batch ck self items = Ok results ->
       List.length results = List.length items
       /\ forall i item,
            nth_error items i = Some item ->
            exists entry,
              nth_error results i = Some entry
              /\ (forall r, predict_item ck self item = Ok r ->
                    entry_success entry = true
                    /\ entry_prediction entry = Some r)
              /\ (forall e, predict_item ck self item = Raise e ->
                    entry_success entry = false
                    /\ entry_prediction entry = None
                    /\ exists fields,
                         item = ItemObject fields
                         /\ entry_text entry
                            = Some (firstn 50 (text_or_empty fields)
                                    ++ str "...")
                         /\ (fields !! "text"%string = None ->
                             entry_error entry = Some "'text'"%string)).
Proof.
  split; [apply predict_batch_returns|].
  intros results Hres.
  split; [exact (predict_batch_length ck self items results Hres)|].
  intros i item Hi.
  destruct (predict_batch_nth ck self items results i item Hres Hi)
    as (entry & Hn & He).
  exists entry. split; [exact Hn|]. unfold batch_entry_of in He. split.
  - intros r Hr. rewrite Hr in He. injection He as <-. auto.
  - intros e Hr. rewrite Hr in He.
    destruct (failure_text item) as [txt|e'] eqn:Ht; [|discriminate].
    simpl in He. injection He as <-. simpl.
    split; [reflexivity|]. split; [reflexivity|].
    destruct item as [fields| | |]; try discriminate.
    exists fields. split; [reflexivity|].
    split; [now rewrite (failure_text_of_object fields txt Ht)|].
    intros Hno. unfold predict_item in Hr. rewrite Hno in Hr.
    now injection Hr as <-.
Qed.

Lemma predict_batch_entries_witness :
  predict_batch (fun _ => true) demo_service
    [ ItemObject (<["type"%string := JStr (str "email")]> ∅);
      RoutesSpec.request "http://a-b.example.com/x" "url" ]
  = Ok [ {| entry_success := false; entry_prediction := None;
            entry_error := Some "'text'"%string;
            entry_text := Some (str "...") |};
         {| entry_success := true;
            entry_prediction :=
              Some (assemble Url None 1 0.9%float);
            entry_error := None; entry_text := None |} ]
  /\ List.length
       [ {| entry_success := false; entry_prediction := None;
            entry_error := Some "'text'"%string;
            entry_text := Some (str "...") |};
         {| entry_success := true;
            entry_prediction :=
              Some (assemble Url None 1 0.9%float);
            entry_error := None; entry_text := None |} ] = 2.
Proof.
  split; [vm_compute; reflexivity|].
  apply (proj2 (predict_batch_entries (fun _ => true) demo_service
                  [ ItemObject (<["type"%string := JStr (str "email")]> ∅);
                    RoutesSpec.request "http://a-b.example.com/x" "url" ])).
  vm_compute; reflexivity.
Defined.

(** One failing item whose text is not a string loses the batch: the
    handler raises while it reports on the item. *)
Example predict_batch_lost :
  predict_batch (fun _ => true) demo_service
    [ RoutesSpec.request "http://a-b.example.com/x" "url";
      ItemObject (<["text"%string := JOther true]>
                    (<["type"%string := JStr (str "url")]> ∅)) ]
  = Raise (OtherError "TypeError").
Proof. vm_compute. reflexivity. Qed.

(** On a service whose models are not loaded no prediction returns.  If
    every item is an object whose text is absent or a string,
    [predict_batch] returns one failure per item, and an item that has
    both keys fails with the message ["Models not loaded"].  If one item
    is anything else, [predict_batch] raises and returns no entry at
    all. *)
Theorem predict_batch_unloaded {X} ck (self : t X) items :
  models_loaded self = false ->
  (Forall (fun item => reportable item = true) items ->
   exists results,
     predict_batch ck self items = Ok results
     /\ List.length results = List.length items
     /\ Forall (fun entry => entry_success entry = false) results
     /\ forall i fields txt ty,
          nth_error items i = Some (ItemObject fields) ->
          fields !! "text"%string = Some txt ->
          fields !! "type"%string = Some ty ->
          exists entry,
            nth_error results i = Some entry
            /\ entry_error entry = Some "Models not loaded"%string)
  /\ (Exists (fun item => reportable item = false) items ->
      exists e, predict_batch ck self items = Raise e).
Proof.
  intros Hm. split.
  - intros Hall.
    destruct (proj2 (predict_batch_returns ck self items)) as [results Hres].
    { eapply Forall_impl; [|exact Hall]. intros item H. now right. }
    exists results. split; [exact Hres|].
    split; [exact (predict_batch_length ck self items results Hres)|]. split.
    + apply Forall_forall. intros entry Hin.
      apply In_nth_error in Hin as [i Hi].
      assert (Hlt : i < List.length items).
      { rewrite <- (predict_batch_length ck self items results Hres).
        apply nth_error_Some. congruence. }
      destruct (nth_error items i) as [item|] eqn:Hitem;
        [|apply nth_error_None in Hitem; lia].
      destruct (predict_batch_nth ck self items results i item Hres Hitem)
        as (entry' & Hn & He).
      rewrite Hi in Hn. injection Hn as <-.
      unfold batch_entry_of in He.
      destruct (predict_item_unloaded ck self item Hm) as [e Hr].
      rewrite Hr in He. destruct (failure_text item); [|discriminate].
      simpl in He. now injection He as <-.
    + intros i fields txt ty Hi Ht Hy.
      destruct (predict_batch_nth ck self items results i _ Hres Hi)
        as (entry & Hn & He).
      exists entry. split; [exact Hn|].
      unfold batch_entry_of in He.
      rewrite (predict_item_unloaded_message ck self fields txt ty Hm Ht Hy)
        in He.
      destruct (failure_text (ItemObject fields)); [|discriminate].
      simpl in He. now injection He as <-.
  - intros Hex.
    destruct (predict_batch ck self items) as [results|e] eqn:Hres;
      [|eauto].
    exfalso.
    assert (Hret : exists results, predict_batch ck self items = Ok results)
      by eauto.
    apply predict_batch_returns in Hret.
    apply Exists_exists in Hex as (item & Hin & Hbad).
    rewrite Forall_forall in Hret.
    destruct (Hret item Hin) as [[r Hr]|Hgood]; [|congruence].
    destruct (predict_item_unloaded ck self item Hm) as [e He]. congruence.
Qed.

Lemma predict_batch_unloaded_witness :
  models_loaded (init : t unit) = false
  /\ Exists (fun item => reportable item = false)
       [ RoutesSpec.request "verify your account" "email";
         ItemObject (<["text"%string := JOther true]>
                       (<["type"%string := JStr (str "url")]> ∅)) ]
  /\ exists e,
       predict_batch (fun _ => true) (init : t unit)
         [ RoutesSpec.request "verify your account" "email";
           ItemObject (<["text"%string := JOther true]>
                         (<["type"%string := JStr (str "url")]> ∅)) ]
       = Raise e.
Proof.
  assert (Hex : Exists (fun item => reportable item = false)
            [ RoutesSpec.request "verify your account" "email";
              ItemObject (<["text"%string := JOther true]>
                            (<["type"%string := JStr (str "url")]> ∅)) ]).
  { apply Exists_cons_tl, Exists_cons_hd. reflexivity. }
  split; [reflexivity|]. split; [exact Hex|].
  apply (proj2 (predict_batch_unloaded (fun _ => true) (init : t unit)
                  _ eq_refl) Hex).
Defined.

(** *** Loading again *)

(** A later call of [load_models] never unloads: whatever it finds on
    disk, a classifier that was loaded stays loaded and a service that was
    ready stays ready. *)
Theorem load_models_never_unloads {X} (disk : saved_models X) self :
  (EmailClassifier.is_loaded (email_classifier self) = true ->
   EmailClassifier.is_loaded
     (email_classifier (fst (load_models disk self))) = true)
  /\ (URLClassifier.is_loaded (url_classifier self) = true ->
      URLClassifier.is_loaded
        (url_classifier (fst (load_models disk self))) = true)
  /\ (models_loaded self = true ->
      models_loaded (fst (load_models disk self)) = true).
Proof.
  unfold load_models, EmailClassifier.load_model, URLClassifier.load_model.
  destruct (dir_exists disk); simpl; [|tauto].
  destruct (email_classifier_pkl disk); simpl; [|tauto].
  destruct (email_vectorizer_pkl disk); simpl; [|tauto].
  destruct (url_classifier_pkl disk); simpl; tauto.
Qed.

Lemma load_models_never_unloads_witness :
  models_loaded demo_service = true
  /\ models_loaded (fst (load_models email_only_disk demo_service)) = true.
Proof.
  split; [reflexivity|].
  apply (load_models_never_unloads email_only_disk demo_service). reflexivity.
Defined.

Lemma prediction_is_consistent_witness :
  exists r,
    predict_text (fun _ => true) demo_service
      (str "http://a-b.example.com/x") (str "URL") = Ok r
    /\ prediction_label r = Phishing
    /\ risk_level r = High
    /\ PrimFloat.leb 0.8%float (confidence r) = true.
Proof.
  eexists. split; [vm_compute; reflexivity|].
  split; [reflexivity|]. split; [reflexivity|].
  apply (prediction_is_consistent (fun _ => true) demo_service
           (str "http://a-b.example.com/x") (str "URL"));
    [vm_compute; reflexivity|reflexivity].
Defined.

End PredictionServiceMoreFacts.

(** ** More of the endpoints *)

Module RoutesMoreFacts.

Import Routes RoutesSpec PredictionServiceSpec.

(** Whenever a prediction service exists, the health endpoint answers 500:
    it reads the key ['models_ready'], which [get_model_info] never sets.
    Only without a service does it answer 200, and then it reports
    [models_loaded] as false. *)
Theorem api_health_fails_with_service {X} (svc : PredictionService.t X) :
  api_health (Some svc)
  = (500%Z,
     <["status"%string := PredictionService.InfoStr "unhealthy"]>
       (<["error"%string :=
            PredictionService.InfoStr "Health check failed"]> ∅))
  /\ fst (api_health (@None (PredictionService.t X))) = 200%Z
  /\ snd (api_health (@None (PredictionService.t X))) !! "models_loaded"%string
     = Some (PredictionService.InfoBool false).
Proof.
  split; [|split; reflexivity].
  unfold api_health, PredictionService.get_model_info.
  rewrite !lookup_insert_ne by discriminate. rewrite lookup_empty.
  reflexivity.
Qed.

Section Api.

Variable X : Type.
Variable url_pattern_match : text -> bool.
Variable check_bracketed : text -> bool.
Variable round4 : float -> float.

Local Abbreviation validate :=
  (InputValidator.validate_prediction_input url_pattern_match check_bracketed).
Local Abbreviation item_result :=
  (process_item url_pattern_match check_bracketed round4).
Local Abbreviation single :=
  (api_predict url_pattern_match check_bracketed round4).
Local Abbreviation endpoint :=
  (api_batch_predict url_pattern_match check_bracketed round4).

(** The batch endpoint treats an item as the single endpoint treats the
    same request: the entry is a success exactly when the single call
    answers 200, with the same data; a request that fails validation gets
    400 there and the same message here; a prediction that raises gets 500
    there and a processing error here. *)
Theorem batch_agrees_with_single (svc : PredictionService.t X) i item :
  success (item_result svc i item) = body_success (single (Some svc) item)
  /\ data (item_result svc i item) = body_data (single (Some svc) item)
  /\ (status (single (Some svc) item) = 200%Z
      <-> success (item_result svc i item) = true)
  /\ (status (single (Some svc) item) = 400%Z
      <-> InputValidator.is_valid (validate item) = false)
  /\ (InputValidator.is_valid (validate item) = false ->
      error (item_result svc i item) = body_error (single (Some svc) item))
  /\ (status (single (Some svc) item) = 500%Z ->
      error (item_result svc i item) = Some "Processing error"%string).
Proof.
  unfold process_item, api_predict.
  destruct (InputValidator.is_valid (validate item)) eqn:Hv; simpl.
  - destruct (item_field "text" item) as [[txt|]|];
      try (repeat split; intros; (reflexivity || discriminate || congruence)).
    destruct (item_field "type" item) as [[ty|]|];
      try (repeat split; intros; (reflexivity || discriminate || congruence)).
    destruct (PredictionService.predict check_bracketed svc txt ty);
      repeat split; intros; (reflexivity || discriminate || congruence).
  - repeat split; intros; (reflexivity || discriminate || congruence).
Qed.

Lemma process_item_unloaded (svc : PredictionService.t X) i item :
  PredictionService.models_loaded svc = false ->
  success (item_result svc i item) = false.
Proof.
  intros Hm. unfold process_item.
  destruct (negb _); [reflexivity|].
  destruct (item_field "text" item) as [[txt|]|]; try reflexivity.
  destruct (item_field "type" item) as [[ty|]|]; try reflexivity.
  unfold PredictionService.predict, PredictionService.predict_text.
  now rewrite Hm.
Qed.

(** On a service whose models are not loaded, as the module constructs
    it, an accepted batch has no success at all: every entry is a failure
    and the count of successful predictions is 0. *)
Theorem batch_on_unloaded_service (svc : PredictionService.t X) items :
  PredictionService.models_loaded svc = false ->
  1 <= List.length items <= 50 ->
  exists results,
    endpoint (Some svc) (BodyItems items)
    = BatchResponse results (List.length items) 0
    /\ List.length results = List.length items
    /\ Forall (fun r => success r = false) results.
Proof.
  intros Hm Hn.
  assert (Hall : Forall (fun r => success r = false)
                   (process_items url_pattern_match check_bracketed round4
                      svc items)).
  { rewrite RoutesFacts.process_items_map. apply Forall_forall.
    intros r Hr. apply in_map_iff in Hr as [[i item] [<- _]].
    now apply process_item_unloaded. }
  eexists. split; [|split; [apply RoutesFacts.process_items_length|exact Hall]].
  rewrite (RoutesFacts.accepted_batch X url_pattern_match check_bracketed
             round4 svc items Hn). f_equal.
  induction Hall as [|r l Hr _ IH]; [reflexivity|].
  simpl. now rewrite Hr.
Qed.

(** The count of successful predictions never exceeds the number of
    items, and the two are equal only if every entry is a success. *)
Theorem successful_count_bounded (svc : PredictionService.t X) items results
    total successful :
  endpoint (Some svc) (BodyItems items)
  = BatchResponse results total successful ->
  successful <= total
  /\ (successful = total -> Forall (fun r => success r = true) results).
Proof.
  unfold api_batch_predict.
  destruct (List.length items =? 0); [discriminate|].
  destruct (50 <? List.length items); [discriminate|].
  intros [= <- <- <-].
  rewrite <- (RoutesFacts.process_items_length X url_pattern_match
                check_bracketed round4 svc items).
  generalize (process_items url_pattern_match check_bracketed round4 svc items).
  intros l. split; [apply filter_length_le|].
  induction l as [|r l IH]; [constructor|]. simpl.
  pose proof (filter_length_le success l) as Hle.
  destruct (success r) eqn:Hr; simpl; intros E.
  - constructor; [exact Hr|]. apply IH. lia.
  - lia.
Qed.

End Api.

Lemma batch_agrees_with_single_witness :
  InputValidator.is_valid
    (InputValidator.validate_prediction_input (fun _ => false) (fun _ => true)
       (request "x" "bogus")) = false
  /\ error (process_item (fun _ => false) (fun _ => true) (fun x => x)
              demo_service 1 (request "x" "bogus"))
     = body_error (api_predict (fun _ => false) (fun _ => true) (fun x => x)
                     (Some demo_service) (request "x" "bogus")).
Proof.
  split; [vm_compute; reflexivity|].
  apply (batch_agrees_with_single unit (fun _ => false) (fun _ => true)
           (fun x => x) demo_service 1 (request "x" "bogus")).
  vm_compute; reflexivity.
Defined.

Lemma batch_on_unloaded_service_witness :
  PredictionService.models_loaded (PredictionService.init
                                     : PredictionService.t unit) = false
  /\ 1 <= List.length mixed_batch <= 50
  /\ exists results,
       api_batch_predict (fun _ => false) (fun _ => true) (fun x => x)
         (Some (PredictionService.init : PredictionService.t unit))
         (BodyItems mixed_batch)
       = BatchResponse results (List.length mixed_batch) 0.
Proof.
  split; [reflexivity|]. split; [simpl; lia|].
  destruct (batch_on_unloaded_service unit (fun _ => false) (fun _ => true)
              (fun x => x) PredictionService.init mixed_batch eq_refl)
    as [results (He & _)]; [simpl; lia|].
  exists results. exact He.
Defined.

Lemma successful_count_bounded_witness :
  exists results,
    api_batch_predict (fun _ => false) (fun _ => true) (fun x => x)
      (Some demo_service) (BodyItems mixed_batch)
    = BatchResponse results 3 2
    /\ 2 <= 3.
Proof.
  assert (H : exists results,
             api_batch_predict (fun _ => false) (fun _ => true) (fun x => x)
               (Some demo_service) (BodyItems mixed_batch)
             = BatchResponse results 3 2)
    by (eexists; vm_compute; reflexivity).
  destruct H as [results H]. exists results. split; [exact H|].
  exact (proj1 (successful_count_bounded unit (fun _ => false)
                  (fun _ => true) (fun x => x) demo_service mixed_batch
                  results 3 2 H)).
Defined.

End RoutesMoreFacts.
